(** * go-i2c: register-level access to one I2C device

    A shallow embedding of [i2c.go].  The Go type [I2C] is a record holding
    the device address, the bus number and the file handle [rc]; its methods
    are state transformers over that record.  Bytes on the wire are
    [Byte.byte]; [uint16] and [int16] values are integers in [Z] with the
    wrap-around of every Go operation written out.

    The logrus trace statements of the source format their arguments and
    hand them to the logger; they return nothing and no branch depends on
    them, so they have no counterpart below. *)

From Stdlib Require Import ZArith List Bool Lia.
From coqutil Require Import Byte.
Import ListNotations.
Local Open Scope Z_scope.

(** ** Fixed-width integers *)

Module Int.

(** Result of an operation at Go type [uint16]. *)
Definition u16 (z : Z) : Z := z mod 65536.

(** Result of an operation at Go type [int16] (two's complement). *)
Definition s16 (z : Z) : Z := (z + 32768) mod 65536 - 32768.

(** Go conversions [uint16(b)] and [int16(b)] of a byte: the value itself. *)
Definition of_byte (b : byte) : Z := byte.unsigned b.

(** Go conversion [byte(x)] of an integer: the low eight bits. *)
Definition to_byte (z : Z) : byte := byte.of_Z z.

Definition is_u16 (z : Z) : Prop := 0 <= z < 65536.
Definition is_s16 (z : Z) : Prop := -32768 <= z < 32768.

End Int.

(** ** Word assembly and byte exchange, as the methods compute them *)

(** [uint16(buf[0])<<8 + uint16(buf[1])] *)
Definition assemble_u16 (b0 b1 : byte) : Z :=
  Int.u16 (Int.u16 (Z.shiftl (Int.of_byte b0) 8) + Int.of_byte b1).

(** [int16(buf[0])<<8 + int16(buf[1])] *)
Definition assemble_s16 (b0 b1 : byte) : Z :=
  Int.s16 (Int.s16 (Z.shiftl (Int.of_byte b0) 8) + Int.of_byte b1).

(** [(w&0xFF)<<8 + w>>8] at type [uint16] (logical shift). *)
Definition exchange_u16 (w : Z) : Z :=
  Int.u16 (Int.u16 (Z.shiftl (Z.land w 0xFF) 8) + Z.shiftr w 8).

(** [(w&0xFF)<<8 + w>>8] at type [int16]: [>>] is the arithmetic shift,
    which is what [Z.shiftr] is on a negative number. *)
Definition exchange_s16 (w : Z) : Z :=
  Int.s16 (Int.s16 (Z.shiftl (Z.land w 0xFF) 8) + Z.shiftr w 8).

(** [(value*0xFF00)>>8 + value<<8] at type [uint16]. *)
Definition le_word_u16 (value : Z) : Z :=
  Int.u16 (Z.shiftr (Int.u16 (value * 0xFF00)) 8 + Int.u16 (Z.shiftl value 8)).

(** [int16((uint16(value)*0xFF00)>>8) + value<<8] at type [int16]. *)
Definition le_word_s16 (value : Z) : Z :=
  Int.s16 (Int.s16 (Z.shiftr (Int.u16 (Int.u16 value * 0xFF00)) 8)
           + Int.s16 (Z.shiftl value 8)).

(** [[]byte{reg, byte((value & 0xFF00) >> 8), byte(value & 0xFF)}] *)
Definition frame_u16 (reg : byte) (value : Z) : list byte :=
  [reg; Int.to_byte (Z.shiftr (Z.land value 0xFF00) 8);
        Int.to_byte (Z.land value 0xFF)].

(** [[]byte{reg, byte((uint16(value) & 0xFF00) >> 8), byte(value & 0xFF)}] *)
Definition frame_s16 (reg : byte) (value : Z) : list byte :=
  [reg; Int.to_byte (Z.shiftr (Z.land (Int.u16 value) 0xFF00) 8);
        Int.to_byte (Int.s16 (Z.land value 0xFF))].

(** ** Errors, the byte transport and the file handle *)

(** Go's [error] values that can come back from the handle: the error of a
    handle that was closed, and the errno of a failed system call. *)
Inductive error : Type :=
| ChannelClosed
| Errno (code : Z).

(** What the process does to the outside world, in the order it does it. *)
Inductive Event : Type :=
| EvWrite (frame : list byte)   (* one write transaction carrying [frame] *)
| EvRead (n : nat)              (* one read transaction asking for [n] bytes *)
| EvSleep (delay : Z)           (* [time.Sleep(delay)] *)
| EvClose.                      (* the descriptor is released *)

(** The byte transport: the device node [/dev/i2c-N] as the kernel presents
    it.  Its behaviour is arbitrary; every definition below is parametric in
    it.  A write reports how many bytes it accepted; a read delivers the
    bytes it stores at the front of the caller's buffer.

    With it comes the one constant of the Go run time the package depends
    on: [max_alloc], the run time's [maxAlloc], the largest number of bytes
    [make] accepts.  It differs between platforms and is at least
    [0x7FFFFFFF] on all of them. *)
Record Transport : Type := {
  Dev : Type;
  dev_open : Z -> error + Dev;
  dev_ioctl : Z -> Z -> Dev -> error + Dev;
  dev_write : list byte -> Dev -> Z * option error * Dev;
  dev_read : nat -> Dev -> list byte * option error * Dev;
  dev_close : Dev -> option error * Dev;
  max_alloc : Z;
  max_alloc_min : (0x7FFFFFFF <=? max_alloc) = true
}.

Inductive outcome (A : Type) : Type :=
| Returned (a : A)
| Panicked.
Arguments Returned {A} a.
Arguments Panicked {A}.

(** [make([]byte, n)]: a zeroed buffer, or the run-time panic "makeslice:
    len out of range" when [n < 0] or [n] is more than the run time's
    [limit]. *)
Definition make_bytes (limit n : Z) : outcome (list byte) :=
  if (n <? 0) || (limit <? n) then Panicked
  else Returned (repeat Byte.x00 (Z.to_nat n)).

(** The caller's buffer after the transport stored [data] at its front: a
    read never writes past the buffer and leaves the rest as it was. *)
Definition fill (buf data : list byte) : list byte :=
  firstn (length buf) data ++ skipn (length data) buf.

(** [buf[i]] for an index inside the buffer. *)
Definition index (buf : list byte) (i : nat) : byte := nth i buf Byte.x00.

Section Channel.

Context {T : Transport}.

(** [os.File]: whether it was closed, the device behind it, and (ghost)
    the history of events so far. *)
Record File : Type := {
  closed : bool;
  dev : Dev T;
  history : list Event
}.

(** Modelled from the spec: [os.File.Write] belongs to Go's standard
    library, not to the repository.  After sections 3 and 4.5 ("all
    operations after close fail", "Closed (all operations fail with
    ChannelClosed)", "performs no transport call") a closed handle answers
    with [ChannelClosed] and does not reach the device; an open handle
    hands the bytes to the device. *)
Definition File_Write (buf : list byte) (f : File) : Z * option error * File :=
  if closed f then (0, Some ChannelClosed, f)
  else let '(n, err, d) := dev_write T buf (dev f) in
       (n, err, {| closed := false; dev := d;
                   history := history f ++ [EvWrite buf] |}).

(** Modelled from the spec: [os.File.Read], under the same words as
    [File_Write].  An open handle asks the device for [len(buf)] bytes;
    the count returned is the number of bytes stored. *)
Definition File_Read (buf : list byte) (f : File)
  : list byte * Z * option error * File :=
  if closed f then (buf, 0, Some ChannelClosed, f)
  else let '(data, err, d) := dev_read T (length buf) (dev f) in
       (fill buf data, Z.of_nat (length (firstn (length buf) data)), err,
        {| closed := false; dev := d;
           history := history f ++ [EvRead (length buf)] |}).

(** Modelled from the spec: [os.File.Close], "releases the transport";
    the transition to [Closed] is "terminal and irreversible".  The handle
    is closed afterwards whatever the device answers. *)
Definition File_Close (f : File) : option error * File :=
  if closed f then (Some ChannelClosed, f)
  else let '(err, d) := dev_close T (dev f) in
       (err, {| closed := true; dev := d;
                history := history f ++ [EvClose] |}).

(** ** The channel *)

Record I2C : Type := {
  addr : byte;
  bus : Z;
  rc : File
}.

Definition with_rc (v : I2C) (f : File) : I2C :=
  {| addr := addr v; bus := bus v; rc := f |}.

(** Methods have a pointer receiver: they read and update the channel. *)
Definition M (A : Type) : Type := I2C -> A * I2C.

Definition ret {A : Type} (a : A) : M A := fun v => (a, v).

Definition bind {A B : Type} (m : M A) (k : A -> M B) : M B :=
  fun v => let (a, v') := m v in k a v'.

Notation "x <- m ;; k" := (bind m (fun x => k))
  (at level 61, m at next level, right associativity).
Notation "' p <- m ;; k" := (bind m (fun x => match x with p => k end))
  (at level 61, p pattern, m at next level, right associativity).

(** [time.Sleep(delay)] *)
Definition Sleep (delay : Z) : M unit :=
  fun v => let f := rc v in
    (tt, with_rc v {| closed := closed f; dev := dev f;
                      history := history f ++ [EvSleep delay] |}).

Definition DefaultReadDelay : Z := 0.

(** The constant [I2C_SLAVE] is declared in another file of the package. *)
Variable I2C_SLAVE : Z.

Definition ioctl (d : Dev T) (cmd arg : Z) : error + Dev T :=
  dev_ioctl T cmd arg d.

Definition NewI2C (addr : byte) (bus : Z) : error + I2C :=
  match dev_open T bus with
  | inl err => inl err
  | inr d =>
      match ioctl d I2C_SLAVE (Int.of_byte addr) with
      | inl err => inl err
      | inr d' =>
          inr {| addr := addr; bus := bus;
                 rc := {| closed := false; dev := d'; history := [] |} |}
      end
  end.

Definition GetBus : M Z := fun v => (bus v, v).

Definition GetAddr : M byte := fun v => (addr v, v).

Definition write (buf : list byte) : M (Z * option error) :=
  fun v => let '(n, err, f) := File_Write buf (rc v) in ((n, err), with_rc v f).

Definition WriteBytes (buf : list byte) : M (Z * option error) :=
  write buf.

Definition read (buf : list byte) : M (list byte * Z * option error) :=
  fun v => let '(buf', n, err, f) := File_Read buf (rc v) in
           ((buf', n, err), with_rc v f).

(** The slice is shared with the caller: the buffer after the call is
    returned next to the count and the error. *)
Definition ReadBytes (buf : list byte) : M (list byte * Z * option error) :=
  '(buf', n, err) <- read buf ;;
  match err with
  | Some e => ret (buf', n, Some e)
  | None => ret (buf', n, None)
  end.

Definition Close : M (option error) :=
  fun v => let (err, f) := File_Close (rc v) in (err, with_rc v f).

Definition ReadRegBytesWithDelay (reg : byte) (n : Z) (delay : Z)
  : M (outcome (option (list byte) * Z * option error)) :=
  '(_, err) <- WriteBytes [reg] ;;
  match err with
  | Some e => ret (Returned (None, 0, Some e))
  | None =>
      match make_bytes (max_alloc T) n with
      | Panicked => ret Panicked
      | Returned buf =>
          _ <- Sleep delay ;;
          '(buf', c, err) <- ReadBytes buf ;;
          match err with
          | Some e => ret (Returned (None, 0, Some e))
          | None => ret (Returned (Some buf', c, None))
          end
      end
  end.

Definition ReadRegBytes (reg : byte) (n : Z) :=
  ReadRegBytesWithDelay reg n DefaultReadDelay.

Definition ReadRegU8WithDelay (reg : byte) (delay : Z)
  : M (byte * option error) :=
  '(_, err) <- WriteBytes [reg] ;;
  match err with
  | Some e => ret (Byte.x00, Some e)
  | None =>
      _ <- Sleep delay ;;
      '(buf, _, err) <- ReadBytes (repeat Byte.x00 1) ;;
      match err with
      | Some e => ret (Byte.x00, Some e)
      | None => ret (index buf 0, None)
      end
  end.

Definition ReadRegU8 (reg : byte) := ReadRegU8WithDelay reg DefaultReadDelay.

Definition WriteRegU8 (reg value : byte) : M (option error) :=
  '(_, err) <- WriteBytes [reg; value] ;;
  match err with
  | Some e => ret (Some e)
  | None => ret None
  end.

Definition ReadRegU16BEWithDelay (reg : byte) (delay : Z)
  : M (Z * option error) :=
  '(_, err) <- WriteBytes [reg] ;;
  match err with
  | Some e => ret (0, Some e)
  | None =>
      _ <- Sleep delay ;;
      '(buf, _, err) <- ReadBytes (repeat Byte.x00 2) ;;
      match err with
      | Some e => ret (0, Some e)
      | None => ret (assemble_u16 (index buf 0) (index buf 1), None)
      end
  end.

Definition ReadRegU16BE (reg : byte) :=
  ReadRegU16BEWithDelay reg DefaultReadDelay.

Definition ReadRegU16LEWithDelay (reg : byte) (delay : Z)
  : M (Z * option error) :=
  '(w, err) <- ReadRegU16BEWithDelay reg delay ;;
  match err with
  | Some e => ret (0, Some e)
  | None => ret (exchange_u16 w, None)
  end.

Definition ReadRegU16LE (reg : byte) :=
  ReadRegU16LEWithDelay reg DefaultReadDelay.

Definition ReadRegS16BEWithDelay (reg : byte) (delay : Z)
  : M (Z * option error) :=
  '(_, err) <- WriteBytes [reg] ;;
  match err with
  | Some e => ret (0, Some e)
  | None =>
      _ <- Sleep delay ;;
      '(buf, _, err) <- ReadBytes (repeat Byte.x00 2) ;;
      match err with
      | Some e => ret (0, Some e)
      | None => ret (assemble_s16 (index buf 0) (index buf 1), None)
      end
  end.

Definition ReadRegS16BE (reg : byte) :=
  ReadRegS16BEWithDelay reg DefaultReadDelay.

Definition ReadRegS16LEWithDelay (reg : byte) (delay : Z)
  : M (Z * option error) :=
  '(w, err) <- ReadRegS16BEWithDelay reg delay ;;
  match err with
  | Some e => ret (0, Some e)
  | None => ret (exchange_s16 w, None)
  end.

Definition ReadRegS16LE (reg : byte) :=
  ReadRegS16LEWithDelay reg DefaultReadDelay.

Definition WriteRegU16BE (reg : byte) (value : Z) : M (option error) :=
  '(_, err) <- WriteBytes (frame_u16 reg value) ;;
  match err with
  | Some e => ret (Some e)
  | None => ret None
  end.

Definition WriteRegU16LE (reg : byte) (value : Z) : M (option error) :=
  WriteRegU16BE reg (le_word_u16 value).

Definition WriteRegS16BE (reg : byte) (value : Z) : M (option error) :=
  '(_, err) <- WriteBytes (frame_s16 reg value) ;;
  match err with
  | Some e => ret (Some e)
  | None => ret None
  end.

Definition WriteRegS16LE (reg : byte) (value : Z) : M (option error) :=
  WriteRegS16BE reg (le_word_s16 value).

End Channel.

Arguments File : clear implicits.
Arguments I2C : clear implicits.
Arguments M : clear implicits.

(** ** Clients: sequences of method calls on one channel *)

Inductive Op : Type :=
| OpGetBus
| OpGetAddr
| OpClose
| OpWriteBytes (buf : list byte)
| OpReadBytes (buf : list byte)
| OpReadRegBytes (reg : byte) (n : Z)
| OpReadRegBytesWithDelay (reg : byte) (n delay : Z)
| OpReadRegU8 (reg : byte)
| OpReadRegU8WithDelay (reg : byte) (delay : Z)
| OpWriteRegU8 (reg value : byte)
| OpReadRegU16BE (reg : byte)
| OpReadRegU16BEWithDelay (reg : byte) (delay : Z)
| OpReadRegU16LE (reg : byte)
| OpReadRegU16LEWithDelay (reg : byte) (delay : Z)
| OpReadRegS16BE (reg : byte)
| OpReadRegS16BEWithDelay (reg : byte) (delay : Z)
| OpReadRegS16LE (reg : byte)
| OpReadRegS16LEWithDelay (reg : byte) (delay : Z)
| OpWriteRegU16BE (reg : byte) (value : Z)
| OpWriteRegU16LE (reg : byte) (value : Z)
| OpWriteRegS16BE (reg : byte) (value : Z)
| OpWriteRegS16LE (reg : byte) (value : Z).

(** What a call hands back, reduced to what the callers of every method can
    tell apart: it panicked, it returned without an error value in its
    signature, or it returned this error (or nil). *)
Inductive Reply : Type :=
| RPanic
| RValue
| RError (err : option error).

Definition reply_of {A : Type} (r : A * option error) : Reply := RError (snd r).

Definition Op_eq_Close (o : Op) : {o = OpClose} + {o <> OpClose}.
Proof. destruct o; (now left) || (right; discriminate). Defined.

(** The two accessors and [Close] are not transfers; everything else is. *)
Definition is_transfer (o : Op) : bool :=
  match o with
  | OpGetBus | OpGetAddr | OpClose => false
  | _ => true
  end.

Section Client.

Context {T : Transport}.

Definition lift {A : Type} (f : A -> Reply) (m : M T A) : M T Reply :=
  fun v => let (a, v') := m v in (f a, v').

Definition exec (o : Op) : M T Reply :=
  match o with
  | OpGetBus => lift (fun _ => RValue) GetBus
  | OpGetAddr => lift (fun _ => RValue) GetAddr
  | OpClose => lift RError Close
  | OpWriteBytes buf => lift reply_of (WriteBytes buf)
  | OpReadBytes buf => lift reply_of (ReadBytes buf)
  | OpReadRegBytes reg n =>
      lift (fun r => match r with Panicked => RPanic | Returned x => reply_of x end)
           (ReadRegBytes reg n)
  | OpReadRegBytesWithDelay reg n d =>
      lift (fun r => match r with Panicked => RPanic | Returned x => reply_of x end)
           (ReadRegBytesWithDelay reg n d)
  | OpReadRegU8 reg => lift reply_of (ReadRegU8 reg)
  | OpReadRegU8WithDelay reg d => lift reply_of (ReadRegU8WithDelay reg d)
  | OpWriteRegU8 reg value => lift RError (WriteRegU8 reg value)
  | OpReadRegU16BE reg => lift reply_of (ReadRegU16BE reg)
  | OpReadRegU16BEWithDelay reg d => lift reply_of (ReadRegU16BEWithDelay reg d)
  | OpReadRegU16LE reg => lift reply_of (ReadRegU16LE reg)
  | OpReadRegU16LEWithDelay reg d => lift reply_of (ReadRegU16LEWithDelay reg d)
  | OpReadRegS16BE reg => lift reply_of (ReadRegS16BE reg)
  | OpReadRegS16BEWithDelay reg d => lift reply_of (ReadRegS16BEWithDelay reg d)
  | OpReadRegS16LE reg => lift reply_of (ReadRegS16LE reg)
  | OpReadRegS16LEWithDelay reg d => lift reply_of (ReadRegS16LEWithDelay reg d)
  | OpWriteRegU16BE reg value => lift RError (WriteRegU16BE reg value)
  | OpWriteRegU16LE reg value => lift RError (WriteRegU16LE reg value)
  | OpWriteRegS16BE reg value => lift RError (WriteRegS16BE reg value)
  | OpWriteRegS16LE reg value => lift RError (WriteRegS16LE reg value)
  end.

(** The channel after a client ran [ops] in order. *)
Definition run (ops : list Op) (v : I2C T) : I2C T :=
  fold_left (fun v o => snd (exec o v)) ops v.

Definition read_events (v : I2C T) : list Event :=
  filter (fun e => match e with EvRead _ => true | _ => false end)
         (history (rc v)).

End Client.

(** ** A device for running the methods

    A register file of 256 byte cells with an address pointer.  A write
    transaction sets the pointer to its first byte and stores the bytes that
    follow from there on; a read transaction delivers the cells from the
    pointer on.  The device can be told to refuse writes or reads, and to
    deliver at most [rlimit] bytes per read. *)

Module Fake.

Record regfile : Type := {
  cells : Z -> byte;
  ptr : Z;
  wfault : option error;
  rfault : option error;
  rlimit : nat
}.

Definition store (p : Z) (data : list byte) (c : Z -> byte) : Z -> byte :=
  fun a => match nth_error data (Z.to_nat ((a - p) mod 256)) with
           | Some b => b
           | None => c a
           end.

Definition accept (frame : list byte) (d : regfile) : Z * option error * regfile :=
  match wfault d with
  | Some e => (0, Some e, d)
  | None =>
      match frame with
      | [] => (0, None, d)
      | reg :: data =>
          (Z.of_nat (length frame), None,
           {| cells := store (byte.unsigned reg) data (cells d);
              ptr := byte.unsigned reg;
              wfault := None; rfault := rfault d; rlimit := rlimit d |})
      end
  end.

Definition deliver (n : nat) (d : regfile) : list byte * option error * regfile :=
  match rfault d with
  | Some e => ([], Some e, d)
  | None =>
      (map (fun i => cells d ((ptr d + Z.of_nat i) mod 256))
           (seq 0 (Nat.min n (rlimit d))), None, d)
  end.

Definition blank : regfile :=
  {| cells := fun _ => Byte.x00; ptr := 0;
     wfault := None; rfault := None; rlimit := 256 |}.

Definition transport : Transport :=
  {| Dev := regfile;
     dev_open := fun bus => if bus <? 0 then inl (Errno 2) else inr blank;
     dev_ioctl := fun cmd arg d => if arg <? 128 then inr d else inl (Errno 22);
     dev_write := accept;
     dev_read := deliver;
     dev_close := fun d => (None, d);
     max_alloc := 2 ^ 48;
     max_alloc_min := eq_refl |}.

(** An open channel on a device in state [d]. *)
Definition channel (d : regfile) : I2C transport :=
  {| addr := Byte.x48; bus := 1;
     rc := @Build_File transport false d [] |}.

(** The device holding [data] from register [reg] on. *)
Definition holding (reg : byte) (data : list byte) : regfile :=
  {| cells := store (byte.unsigned reg) data (fun _ => Byte.x00); ptr := 0;
     wfault := None; rfault := None; rlimit := 256 |}.

Definition deaf (e : error) : regfile :=
  {| cells := fun _ => Byte.x00; ptr := 0;
     wfault := Some e; rfault := None; rlimit := 256 |}.

Definition short (reg : byte) (data : list byte) (limit : nat) : regfile :=
  {| cells := store (byte.unsigned reg) data (fun _ => Byte.x00); ptr := 0;
     wfault := None; rfault := None; rlimit := limit |}.

End Fake.

(** On channel [v], selecting register [reg] succeeds and the read of [k]
    bytes that follows succeeds and stores [data]. *)
Definition delivers {T : Transport} (v : I2C T) (reg : byte) (k : nat)
  (data : list byte) : Prop :=
  closed (rc v) = false /\
  snd (fst (dev_write T [reg] (dev (rc v)))) = None /\
  fst (dev_read T k (snd (dev_write T [reg] (dev (rc v))))) = (data, None).

(** One write transaction carrying [frame] on the open channel [v] and
    nothing else: the error the device reports, and the channel afterwards
    (the device has moved on, the history is one write longer). *)
Definition sent {T : Transport} (v : I2C T) (frame : list byte)
  : option error * I2C T :=
  let '(_, err, d) := dev_write T frame (dev (rc v)) in
  (err, with_rc v {| closed := false; dev := d;
                     history := history (rc v) ++ [EvWrite frame] |}).

(** The two states of section 4.5. *)
Inductive State : Type := Open | Closed.

Definition state {T : Transport} (v : I2C T) : State :=
  if closed (rc v) then Closed else Open.

(** [data] followed by as many zero bytes as a buffer of [k] bytes needs. *)
Definition padded (k : nat) (data : list byte) : list byte :=
  data ++ repeat Byte.x00 (k - length data).

(** The two's-complement reading of a 16-bit pattern [0 <= u < 65536]. *)
Definition twos_complement (u : Z) : Z := if u <? 32768 then u else u - 65536.

(** A computation keeps the channel's identity and state: the address, the
    bus number and whether the handle is closed are as before. *)
Definition keeps (T : Transport) {A : Type} (m : M T A) : Prop :=
  forall v, addr (snd (m v)) = addr v /\ bus (snd (m v)) = bus v /\
            closed (rc (snd (m v))) = closed (rc v).

(** A register file that takes writes and refuses every read with [e]. *)
Definition unreadable (e : error) : Fake.regfile :=
  {| Fake.cells := fun _ => Byte.x00; Fake.ptr := 0;
     Fake.wfault := None; Fake.rfault := Some e; Fake.rlimit := 256 |}.

(** ** Vocabulary for the register protocol as a whole *)

(** The channel is open and the select write of [[reg]] on it succeeds. *)
Definition selected {T : Transport} (v : I2C T) (reg : byte) : Prop :=
  closed (rc v) = false /\
  snd (fst (dev_write T [reg] (dev (rc v)))) = None.

(** What the transport answers to the read of [k] bytes that follows the
    select write of [[reg]]: the bytes it stores and its error. *)
Definition read_reply {T : Transport} (v : I2C T) (reg : byte) (k : nat)
  : list byte * option error :=
  fst (dev_read T k (snd (dev_write T [reg] (dev (rc v))))).

(** The channel after select write, pause and read of [k] bytes. *)
Definition after_read {T : Transport} (v : I2C T) (reg : byte) (delay : Z)
  (k : nat) : I2C T :=
  with_rc v {| closed := false;
               dev := snd (dev_read T k (snd (dev_write T [reg] (dev (rc v)))));
               history := history (rc v)
                          ++ [EvWrite [reg]; EvSleep delay; EvRead k] |}.

(** Once [frame] has been written on [v], selecting the frame's register
    and reading as many bytes as the frame carries delivers those bytes. *)
Definition gives_back {T : Transport} (v : I2C T) (frame : list byte) : Prop :=
  match frame with
  | [] => False
  | reg :: data => delivers (snd (sent v frame)) reg (length data) data
  end.


(** The events a call makes when nothing stops it, in order. *)
Definition footprint (o : Op) : list Event :=
  match o with
  | OpGetBus | OpGetAddr => []
  | OpClose => [EvClose]
  | OpWriteBytes buf => [EvWrite buf]
  | OpReadBytes buf => [EvRead (length buf)]
  | OpReadRegBytes reg n =>
      [EvWrite [reg]; EvSleep DefaultReadDelay; EvRead (Z.to_nat n)]
  | OpReadRegBytesWithDelay reg n d =>
      [EvWrite [reg]; EvSleep d; EvRead (Z.to_nat n)]
  | OpReadRegU8 reg => [EvWrite [reg]; EvSleep DefaultReadDelay; EvRead 1]
  | OpReadRegU8WithDelay reg d => [EvWrite [reg]; EvSleep d; EvRead 1]
  | OpReadRegU16BE reg | OpReadRegU16LE reg
  | OpReadRegS16BE reg | OpReadRegS16LE reg =>
      [EvWrite [reg]; EvSleep DefaultReadDelay; EvRead 2]
  | OpReadRegU16BEWithDelay reg d | OpReadRegU16LEWithDelay reg d
  | OpReadRegS16BEWithDelay reg d | OpReadRegS16LEWithDelay reg d =>
      [EvWrite [reg]; EvSleep d; EvRead 2]
  | OpWriteRegU8 reg value => [EvWrite [reg; value]]
  | OpWriteRegU16BE reg value => [EvWrite (frame_u16 reg value)]
  | OpWriteRegU16LE reg value => [EvWrite (frame_u16 reg (le_word_u16 value))]
  | OpWriteRegS16BE reg value => [EvWrite (frame_s16 reg value)]
  | OpWriteRegS16LE reg value => [EvWrite (frame_s16 reg (le_word_s16 value))]
  end.

(** ** A call as the performance of a plan *)

Section Plans.

Context {T : Transport}.

(** [n] is a length [make] accepts on this platform. *)
Definition in_range (n : Z) : bool := (0 <=? n) && (n <=? max_alloc T).

(** One event carried out on the channel: the error it ends with, if any. *)
Definition step (ev : Event) : M T (option error) :=
  match ev with
  | EvWrite frame => fun v => (snd (fst (WriteBytes frame v)), snd (WriteBytes frame v))
  | EvRead k =>
      fun v => (snd (fst (ReadBytes (repeat Byte.x00 k) v)),
                snd (ReadBytes (repeat Byte.x00 k) v))
  | EvSleep delay => fun v => (None, snd (Sleep delay v))
  | EvClose => Close
  end.

(** The events carried out one after the other; the first one that ends
    with an error is the last one carried out. *)
Fixpoint perform (evs : list Event) : M T (option error) :=
  match evs with
  | [] => ret None
  | ev :: rest =>
      fun v => match step ev v with
               | (Some e, v') => (Some e, v')
               | (None, v') => perform rest v'
               end
  end.

(** What a call sets out to do: its footprint, cut after the select write
    for a [ReadRegBytes] whose [n] [make] will not accept. *)
Definition plan (o : Op) : list Event :=
  match o with
  | OpReadRegBytes reg n | OpReadRegBytesWithDelay reg n _ =>
      if in_range n then footprint o else [EvWrite [reg]]
  | _ => footprint o
  end.

(** What the caller sees when the plan ended with [err]: that error; and
    when it ended without one, a nil error, or plain values from an
    accessor, or the panic of [make]. *)
Definition expected (o : Op) (err : option error) : Reply :=
  match err with
  | Some e => RError (Some e)
  | None =>
      match o with
      | OpGetBus | OpGetAddr => RValue
      | OpReadRegBytes _ n | OpReadRegBytesWithDelay _ n _ =>
          if in_range n then RError None else RPanic
      | _ => RError None
      end
  end.

End Plans.

Arguments in_range : clear implicits.
Arguments plan : clear implicits.
Arguments expected : clear implicits.

(** * Properties *)

(** ** Arithmetic of the word conversions *)

Lemma of_byte_range (b : byte) : 0 <= Int.of_byte b < 256.
Proof. exact (byte.unsigned_range b). Qed.

Lemma shiftl8 (z : Z) : Z.shiftl z 8 = z * 256.
Proof. rewrite Z.shiftl_mul_pow2 by lia. reflexivity. Qed.

Lemma shiftr8 (z : Z) : Z.shiftr z 8 = z / 256.
Proof. rewrite Z.shiftr_div_pow2 by lia. reflexivity. Qed.

Lemma land_ff (z : Z) : Z.land z 0xFF = z mod 256.
Proof. change 0xFF with (Z.ones 8). rewrite Z.land_ones by lia. reflexivity. Qed.

Lemma hi_byte (z : Z) : Z.shiftr (Z.land z 0xFF00) 8 = (z / 256) mod 256.
Proof.
  rewrite Z.shiftr_land. change (Z.shiftr 0xFF00 8) with 0xFF.
  now rewrite land_ff, shiftr8.
Qed.

Lemma to_byte_mod (z : Z) : Int.to_byte (z mod 256) = Int.to_byte z.
Proof.
  apply byte.unsigned_inj. unfold Int.to_byte.
  rewrite !byte.unsigned_of_Z. unfold byte.wrap.
  change (2 ^ 8) with 256. apply Z.mod_mod. lia.
Qed.

Lemma of_to_byte (z : Z) : Int.of_byte (Int.to_byte z) = z mod 256.
Proof. unfold Int.of_byte, Int.to_byte. now rewrite byte.unsigned_of_Z. Qed.

Lemma to_of_byte (b : byte) : Int.to_byte (Int.of_byte b) = b.
Proof.
  apply byte.unsigned_inj. fold (Int.of_byte (Int.to_byte (Int.of_byte b))).
  fold (Int.of_byte b). rewrite of_to_byte.
  apply Z.mod_small, of_byte_range.
Qed.

Ltac wordarith :=
  unfold Int.u16, Int.s16, Int.is_u16, Int.is_s16, twos_complement in *;
  rewrite ?shiftl8, ?shiftr8, ?land_ff, ?hi_byte in *;
  repeat match goal with
         | |- context [Int.of_byte ?b] =>
             let H := fresh "R" in
             pose proof (of_byte_range b) as H;
             generalize dependent (Int.of_byte b); intros
         end;
  repeat match goal with
         | |- context [?a <? ?b] => destruct (Z.ltb_spec a b)
         end;
  Z.div_mod_to_equations; lia.

Lemma assemble_u16_eq (b0 b1 : byte) :
  assemble_u16 b0 b1 = Z.shiftl (Int.of_byte b0) 8 + Int.of_byte b1.
Proof. unfold assemble_u16. wordarith. Qed.

Lemma assemble_u16_range (b0 b1 : byte) : Int.is_u16 (assemble_u16 b0 b1).
Proof. unfold assemble_u16. wordarith. Qed.

Lemma exchange_u16_eq (w : Z) :
  Int.is_u16 w -> exchange_u16 w = w mod 256 * 256 + w / 256.
Proof. intros H. unfold exchange_u16. wordarith. Qed.

Lemma exchange_assemble_u16 (b0 b1 : byte) :
  exchange_u16 (assemble_u16 b0 b1) = Z.shiftl (Int.of_byte b1) 8 + Int.of_byte b0.
Proof.
  rewrite exchange_u16_eq by apply assemble_u16_range.
  rewrite assemble_u16_eq. wordarith.
Qed.

Lemma assemble_s16_eq (b0 b1 : byte) :
  assemble_s16 b0 b1 = twos_complement (Z.shiftl (Int.of_byte b0) 8 + Int.of_byte b1).
Proof. unfold assemble_s16. wordarith. Qed.

(** What the signed exchange computes: the sign extension that [w>>8]
    brings along is added into the upper byte. *)
Lemma exchange_assemble_s16 (b0 b1 : byte) :
  exchange_s16 (assemble_s16 b0 b1) =
  twos_complement
    (Z.shiftl ((Int.of_byte b1 - (if Int.of_byte b0 <? 128 then 0 else 1)) mod 256) 8
     + Int.of_byte b0).
Proof. rewrite assemble_s16_eq. unfold exchange_s16. wordarith. Qed.

Lemma exchange_assemble_s16_low (b0 b1 : byte) :
  Int.of_byte b0 < 128 ->
  exchange_s16 (assemble_s16 b0 b1) =
  twos_complement (Z.shiftl (Int.of_byte b1) 8 + Int.of_byte b0).
Proof. intros H. rewrite assemble_s16_eq. unfold exchange_s16. wordarith. Qed.

(** What the little-endian writers hand to the big-endian ones: the low
    byte of [value] on top, and below it the low byte of [value * 0xFF00]
    shifted down, which is the low byte of [- value]. *)
Lemma le_word_u16_eq (value : Z) :
  Int.is_u16 value -> le_word_u16 value = value mod 256 * 256 + (- value) mod 256.
Proof. intros H. unfold le_word_u16. wordarith. Qed.

Lemma le_word_s16_eq (value : Z) :
  Int.is_s16 value ->
  le_word_s16 value = twos_complement (value mod 256 * 256 + (- value) mod 256).
Proof. intros H. unfold le_word_s16. wordarith. Qed.

Lemma to_byte_congr (x y : Z) : x mod 256 = y mod 256 -> Int.to_byte x = Int.to_byte y.
Proof. intros H. rewrite <- (to_byte_mod x), <- (to_byte_mod y). now f_equal. Qed.

Lemma frame_u16_eq (reg : byte) (value : Z) :
  frame_u16 reg value =
  [reg; Int.to_byte (value / 256); Int.to_byte (value mod 256)].
Proof.
  unfold frame_u16. rewrite hi_byte, land_ff, (to_byte_mod (value / 256)).
  reflexivity.
Qed.

Lemma frame_s16_eq (reg : byte) (value : Z) :
  frame_s16 reg value =
  [reg; Int.to_byte (Int.u16 value / 256); Int.to_byte (Int.u16 value mod 256)].
Proof.
  unfold frame_s16. rewrite hi_byte, land_ff, (to_byte_mod (Int.u16 value / 256)).
  do 2 f_equal. f_equal. apply to_byte_congr. wordarith.
Qed.

(** The frame of a little-endian word write: the low byte of the value and
    then the low byte of its negation. *)
Lemma frame_le_u16 (reg : byte) (value : Z) :
  Int.is_u16 value ->
  frame_u16 reg (le_word_u16 value) = [reg; Int.to_byte value; Int.to_byte (- value)].
Proof.
  intros H. rewrite frame_u16_eq, le_word_u16_eq by assumption.
  do 2 f_equal; [|f_equal]; apply to_byte_congr; wordarith.
Qed.

Lemma frame_le_s16 (reg : byte) (value : Z) :
  Int.is_s16 value ->
  frame_s16 reg (le_word_s16 value) = [reg; Int.to_byte value; Int.to_byte (- value)].
Proof.
  intros H. rewrite frame_s16_eq, le_word_s16_eq by assumption.
  do 2 f_equal; [|f_equal]; apply to_byte_congr; wordarith.
Qed.

(** ** Buffers *)

Lemma fill_length (buf data : list byte) : length (fill buf data) = length buf.
Proof.
  unfold fill. rewrite length_app, length_firstn, length_skipn. lia.
Qed.

Lemma index_fill_zero (k i : nat) (data : list byte) :
  (i < k)%nat -> index (fill (repeat Byte.x00 k) data) i = nth i data Byte.x00.
Proof.
  intros Hi. unfold index, fill. rewrite repeat_length.
  destruct (Nat.lt_ge_cases i (length data)) as [Hlt | Hge].
  - rewrite app_nth1 by (rewrite length_firstn; lia).
    rewrite <- (firstn_skipn k data) at 2.
    rewrite app_nth1 by (rewrite length_firstn; lia). reflexivity.
  - rewrite firstn_all2 by lia. rewrite app_nth2 by lia.
    rewrite (nth_overflow data) by lia.
    rewrite nth_skipn. apply nth_repeat.
Qed.

Lemma padded_nth (k i : nat) (data : list byte) :
  nth i (padded k data) Byte.x00 = nth i data Byte.x00.
Proof.
  unfold padded.
  destruct (Nat.lt_ge_cases i (length data)) as [Hlt | Hge].
  - now rewrite app_nth1.
  - rewrite app_nth2 by lia. rewrite (nth_overflow data) by lia.
    apply nth_repeat.
Qed.

(** ** The raw transfers *)

Section Protocol.

Context {T : Transport}.
Implicit Types (v : I2C T) (reg : byte) (delay : Z).

Lemma with_rc_same v : with_rc v (rc v) = v.
Proof. destruct v; reflexivity. Qed.

Lemma WriteBytes_closed v buf :
  closed (rc v) = true -> WriteBytes buf v = ((0, Some ChannelClosed), v).
Proof.
  intros H. unfold WriteBytes, write, File_Write. rewrite H.
  now rewrite with_rc_same.
Qed.

Lemma WriteBytes_open v buf :
  closed (rc v) = false ->
  WriteBytes buf v =
  (fst (dev_write T buf (dev (rc v))),
   with_rc v {| closed := false; dev := snd (dev_write T buf (dev (rc v)));
                history := history (rc v) ++ [EvWrite buf] |}).
Proof.
  intros H. unfold WriteBytes, write, File_Write. rewrite H.
  destruct (dev_write T buf (dev (rc v))) as [[n err] d]. reflexivity.
Qed.

Lemma ReadBytes_closed v buf :
  closed (rc v) = true -> ReadBytes buf v = ((buf, 0, Some ChannelClosed), v).
Proof.
  intros H. unfold ReadBytes, bind, read, File_Read. rewrite H.
  now rewrite with_rc_same.
Qed.

Lemma ReadBytes_open v buf :
  closed (rc v) = false ->
  ReadBytes buf v =
  let r := dev_read T (length buf) (dev (rc v)) in
  ((fill buf (fst (fst r)), Z.of_nat (length (firstn (length buf) (fst (fst r)))),
    snd (fst r)),
   with_rc v {| closed := false; dev := snd r;
                history := history (rc v) ++ [EvRead (length buf)] |}).
Proof.
  intros H. unfold ReadBytes, bind, read, File_Read. rewrite H.
  destruct (dev_read T (length buf) (dev (rc v))) as [[data err] d].
  destruct err; reflexivity.
Qed.

(** A write adds no read to the history. *)
Lemma WriteBytes_no_read v buf :
  read_events (snd (WriteBytes buf v)) = read_events v.
Proof.
  destruct (closed (rc v)) eqn:H.
  - now rewrite WriteBytes_closed.
  - rewrite WriteBytes_open by assumption. unfold read_events. simpl.
    rewrite filter_app. simpl. apply app_nil_r.
Qed.

(** ** The register read protocol: select, pause, read *)

(** Unfolds a register read on a channel whose select write and read are
    named by [delivers]. *)
Ltac by_protocol H :=
  destruct H as (Hopen & Hsel & Hread);
  unfold bind; rewrite WriteBytes_open by assumption;
  destruct (dev_write T _ _) as [[n err] d1]; simpl in Hsel, Hread |- *;
  subst err; unfold Sleep; simpl;
  rewrite ReadBytes_open by reflexivity; simpl;
  destruct (dev_read T _ d1) as [[data' err'] d2]; simpl in Hread |- *;
  injection Hread as -> ->; simpl.

Lemma ReadRegU8_protocol v reg delay data :
  delivers v reg 1 data ->
  ReadRegU8WithDelay reg delay v =
  ((nth 0 data Byte.x00, None),
   with_rc v {| closed := false;
                dev := snd (dev_read T 1 (snd (dev_write T [reg] (dev (rc v)))));
                history := history (rc v)
                           ++ [EvWrite [reg]; EvSleep delay; EvRead 1] |}).
Proof.
  intros H. unfold ReadRegU8WithDelay. by_protocol H.
  rewrite (index_fill_zero 1 0) by lia.
  unfold with_rc; simpl. now rewrite <- !app_assoc.
Qed.

Lemma ReadRegU16BE_protocol v reg delay data :
  delivers v reg 2 data ->
  ReadRegU16BEWithDelay reg delay v =
  ((assemble_u16 (nth 0 data Byte.x00) (nth 1 data Byte.x00), None),
   with_rc v {| closed := false;
                dev := snd (dev_read T 2 (snd (dev_write T [reg] (dev (rc v)))));
                history := history (rc v)
                           ++ [EvWrite [reg]; EvSleep delay; EvRead 2] |}).
Proof.
  intros H. unfold ReadRegU16BEWithDelay. by_protocol H.
  rewrite (index_fill_zero 2 0), (index_fill_zero 2 1) by lia.
  unfold with_rc; simpl. now rewrite <- !app_assoc.
Qed.

Lemma ReadRegS16BE_protocol v reg delay data :
  delivers v reg 2 data ->
  ReadRegS16BEWithDelay reg delay v =
  ((assemble_s16 (nth 0 data Byte.x00) (nth 1 data Byte.x00), None),
   with_rc v {| closed := false;
                dev := snd (dev_read T 2 (snd (dev_write T [reg] (dev (rc v)))));
                history := history (rc v)
                           ++ [EvWrite [reg]; EvSleep delay; EvRead 2] |}).
Proof.
  intros H. unfold ReadRegS16BEWithDelay. by_protocol H.
  rewrite (index_fill_zero 2 0), (index_fill_zero 2 1) by lia.
  unfold with_rc; simpl. now rewrite <- !app_assoc.
Qed.

(** The little-endian reads are the big-endian reads with the result
    exchanged: one transaction on the wire, no second read. *)
Lemma ReadRegU16LE_of_BE v reg delay w v' :
  ReadRegU16BEWithDelay reg delay v = ((w, None), v') ->
  ReadRegU16LEWithDelay reg delay v = ((exchange_u16 w, None), v').
Proof. intros H. unfold ReadRegU16LEWithDelay, bind. now rewrite H. Qed.

Lemma ReadRegS16LE_of_BE v reg delay w v' :
  ReadRegS16BEWithDelay reg delay v = ((w, None), v') ->
  ReadRegS16LEWithDelay reg delay v = ((exchange_s16 w, None), v').
Proof. intros H. unfold ReadRegS16LEWithDelay, bind. now rewrite H. Qed.

End Protocol.

(** ** Reading words *)

Section Reads.

Context {T : Transport}.
Implicit Types (v : I2C T) (reg : byte) (delay : Z).

(** C4.  When the transport delivers the wire bytes [b0, b1], the unsigned
    big-endian read returns [(b0<<8)+b1] and the unsigned little-endian read
    of the same wire bytes returns [(b1<<8)+b0], with a nil error, for every
    register and every delay; wire bytes [0x01, 0x02] give [0x0102] and
    [0x0201]. *)
Theorem ReadRegU16_wire_order v reg delay (b0 b1 : byte) :
  delivers v reg 2 [b0; b1] ->
  fst (ReadRegU16BE reg v)
    = (Z.shiftl (Int.of_byte b0) 8 + Int.of_byte b1, None) /\
  fst (ReadRegU16LE reg v)
    = (Z.shiftl (Int.of_byte b1) 8 + Int.of_byte b0, None) /\
  fst (ReadRegU16BEWithDelay reg delay v)
    = (Z.shiftl (Int.of_byte b0) 8 + Int.of_byte b1, None) /\
  fst (ReadRegU16LEWithDelay reg delay v)
    = (Z.shiftl (Int.of_byte b1) 8 + Int.of_byte b0, None) /\
  (b0 = Byte.x01 -> b1 = Byte.x02 ->
   fst (ReadRegU16BE reg v) = (0x0102, None) /\
   fst (ReadRegU16LE reg v) = (0x0201, None)).
Proof.
  intros H.
  assert (BE : forall d, fst (ReadRegU16BEWithDelay reg d v)
                 = (Z.shiftl (Int.of_byte b0) 8 + Int.of_byte b1, None)).
  { intros d. rewrite (ReadRegU16BE_protocol v reg d [b0; b1] H).
    simpl. now rewrite assemble_u16_eq. }
  assert (LE : forall d, fst (ReadRegU16LEWithDelay reg d v)
                 = (Z.shiftl (Int.of_byte b1) 8 + Int.of_byte b0, None)).
  { intros d.
    rewrite (ReadRegU16LE_of_BE v reg d _ _ (ReadRegU16BE_protocol v reg d _ H)).
    simpl. now rewrite exchange_assemble_u16. }
  unfold ReadRegU16BE, ReadRegU16LE.
  repeat split; intros; subst; solve [apply BE | apply LE].
Qed.

(** C5.  When the transport delivers the wire bytes [b0, b1], the signed
    big-endian read returns the two's-complement reading of [(b0<<8)+b1]
    with a nil error; wire bytes [0xFF, 0xFF] give [-1], not [65535]. *)
Theorem ReadRegS16BE_twos_complement v reg delay (b0 b1 : byte) :
  delivers v reg 2 [b0; b1] ->
  fst (ReadRegS16BE reg v)
    = (twos_complement (Z.shiftl (Int.of_byte b0) 8 + Int.of_byte b1), None) /\
  fst (ReadRegS16BEWithDelay reg delay v)
    = (twos_complement (Z.shiftl (Int.of_byte b0) 8 + Int.of_byte b1), None) /\
  (b0 = Byte.xff -> b1 = Byte.xff ->
   fst (ReadRegS16BE reg v) = (-1, None) /\
   fst (ReadRegS16BE reg v) <> (65535, None)).
Proof.
  intros H.
  assert (BE : forall d, fst (ReadRegS16BEWithDelay reg d v)
                 = (twos_complement (Z.shiftl (Int.of_byte b0) 8 + Int.of_byte b1),
                    None)).
  { intros d. rewrite (ReadRegS16BE_protocol v reg d [b0; b1] H).
    simpl. now rewrite assemble_s16_eq. }
  unfold ReadRegS16BE.
  repeat split; intros; subst; try apply BE.
  rewrite BE. discriminate.
Qed.

(** C10.  The fixed-width reads do not look at the count of the transport
    read.  Past a successful select write, when the read of one byte
    succeeds having stored [data1] (which may be empty), [ReadRegU8] returns
    a nil error and the stored byte, or zero when none was stored; when the
    read of two bytes succeeds having stored [data2] (empty, or one byte, or
    two), each word read returns a nil error and the value assembled from
    the stored bytes with zero for every position not stored.  A channel
    [v'] whose read stores the zero-padded data in full gives the same
    results.  The two cases are independent of each other; the methods
    without a delay argument are these at [DefaultReadDelay]. *)
Theorem fixed_width_reads_ignore_count v reg delay :
  selected v reg ->
  (forall data1 : list byte,
     read_reply v reg 1 = (data1, None) ->
     fst (ReadRegU8WithDelay reg delay v) = (nth 0 data1 Byte.x00, None) /\
     fst (ReadRegU8 reg v) = (nth 0 data1 Byte.x00, None) /\
     (data1 = [] -> fst (ReadRegU8WithDelay reg delay v) = (Byte.x00, None)) /\
     forall v' : I2C T,
       delivers v' reg 1 (padded 1 data1) ->
       fst (ReadRegU8WithDelay reg delay v)
         = fst (ReadRegU8WithDelay reg delay v')) /\
  (forall data2 : list byte,
     read_reply v reg 2 = (data2, None) ->
     let z0 := Int.of_byte (nth 0 data2 Byte.x00) in
     let z1 := Int.of_byte (nth 1 data2 Byte.x00) in
     fst (ReadRegU16BEWithDelay reg delay v) = (Z.shiftl z0 8 + z1, None) /\
     fst (ReadRegU16LEWithDelay reg delay v) = (Z.shiftl z1 8 + z0, None) /\
     fst (ReadRegS16BEWithDelay reg delay v)
       = (twos_complement (Z.shiftl z0 8 + z1), None) /\
     fst (ReadRegS16LEWithDelay reg delay v)
       = (twos_complement
            (Z.shiftl ((z1 - (if z0 <? 128 then 0 else 1)) mod 256) 8 + z0),
          None) /\
     fst (ReadRegU16BE reg v) = (Z.shiftl z0 8 + z1, None) /\
     fst (ReadRegU16LE reg v) = (Z.shiftl z1 8 + z0, None) /\
     fst (ReadRegS16BE reg v) = (twos_complement (Z.shiftl z0 8 + z1), None) /\
     fst (ReadRegS16LE reg v)
       = (twos_complement
            (Z.shiftl ((z1 - (if z0 <? 128 then 0 else 1)) mod 256) 8 + z0),
          None) /\
     (data2 = [] ->
      fst (ReadRegU16BEWithDelay reg delay v) = (0, None) /\
      fst (ReadRegU16LEWithDelay reg delay v) = (0, None) /\
      fst (ReadRegS16BEWithDelay reg delay v) = (0, None) /\
      fst (ReadRegS16LEWithDelay reg delay v) = (0, None)) /\
     (forall b0 : byte, data2 = [b0] ->
      fst (ReadRegU16BEWithDelay reg delay v) = (Int.of_byte b0 * 256, None) /\
      fst (ReadRegU16LEWithDelay reg delay v) = (Int.of_byte b0, None)) /\
     forall v' : I2C T,
       delivers v' reg 2 (padded 2 data2) ->
       fst (ReadRegU16BEWithDelay reg delay v)
         = fst (ReadRegU16BEWithDelay reg delay v') /\
       fst (ReadRegU16LEWithDelay reg delay v)
         = fst (ReadRegU16LEWithDelay reg delay v') /\
       fst (ReadRegS16BEWithDelay reg delay v)
         = fst (ReadRegS16BEWithDelay reg delay v') /\
       fst (ReadRegS16LEWithDelay reg delay v)
         = fst (ReadRegS16LEWithDelay reg delay v')).
Proof.
  intros [Hopen Hsel]. split.
  - intros data1 R1.
    assert (D : delivers v reg 1 data1) by (repeat split; assumption).
    unfold ReadRegU8. rewrite !(ReadRegU8_protocol v reg _ _ D). simpl.
    do 2 (split; [reflexivity|]).
    split; [intros ->; reflexivity|].
    intros v' P. rewrite (ReadRegU8_protocol v' reg delay _ P). simpl.
    now rewrite padded_nth.
  - intros data2 R2 z0 z1.
    assert (D : delivers v reg 2 data2) by (repeat split; assumption).
    assert (BU : forall d, fst (ReadRegU16BEWithDelay reg d v)
                   = (Z.shiftl z0 8 + z1, None)).
    { intros d. rewrite (ReadRegU16BE_protocol v reg d _ D). simpl.
      now rewrite assemble_u16_eq. }
    assert (LU : forall d, fst (ReadRegU16LEWithDelay reg d v)
                   = (Z.shiftl z1 8 + z0, None)).
    { intros d.
      rewrite (ReadRegU16LE_of_BE _ _ _ _ _ (ReadRegU16BE_protocol v reg d _ D)).
      simpl. now rewrite exchange_assemble_u16. }
    assert (BS : forall d, fst (ReadRegS16BEWithDelay reg d v)
                   = (twos_complement (Z.shiftl z0 8 + z1), None)).
    { intros d. rewrite (ReadRegS16BE_protocol v reg d _ D). simpl.
      now rewrite assemble_s16_eq. }
    assert (LS : forall d, fst (ReadRegS16LEWithDelay reg d v)
                   = (twos_complement
                        (Z.shiftl ((z1 - (if z0 <? 128 then 0 else 1)) mod 256) 8
                         + z0), None)).
    { intros d.
      rewrite (ReadRegS16LE_of_BE _ _ _ _ _ (ReadRegS16BE_protocol v reg d _ D)).
      simpl. now rewrite exchange_assemble_s16. }
    unfold ReadRegU16BE, ReadRegU16LE, ReadRegS16BE, ReadRegS16LE.
    rewrite !BU, !LU, !BS, !LS.
    do 8 (split; [reflexivity|]).
    split; [intros E; subst z0 z1; subst data2; repeat split|].
    split.
    { intros b0 E. subst z0 z1. subst data2. cbn [nth].
      change (Int.of_byte Byte.x00) with 0. rewrite !shiftl8.
      split; f_equal; lia. }
    intros v' P.
    rewrite (ReadRegU16BE_protocol v' reg delay _ P).
    rewrite (ReadRegS16BE_protocol v' reg delay _ P).
    rewrite (ReadRegU16LE_of_BE _ _ _ _ _ (ReadRegU16BE_protocol v' reg delay _ P)).
    rewrite (ReadRegS16LE_of_BE _ _ _ _ _ (ReadRegS16BE_protocol v' reg delay _ P)).
    cbn [fst snd]. rewrite !padded_nth.
    rewrite exchange_assemble_u16, exchange_assemble_s16, assemble_u16_eq,
      assemble_s16_eq.
    repeat split.
Qed.

End Reads.

(** ** A failed register select, and the register writes *)

Section Frames.

Context {T : Transport}.
Implicit Types (v : I2C T) (reg : byte) (delay : Z).

(** Every register read starts with the select write and stops there when
    it fails. *)
Ltac stops_at_select H :=
  unfold ReadRegBytes, ReadRegU8, ReadRegU16BE, ReadRegU16LE, ReadRegS16BE,
    ReadRegS16LE, ReadRegBytesWithDelay, ReadRegU8WithDelay,
    ReadRegU16LEWithDelay, ReadRegS16LEWithDelay, ReadRegU16BEWithDelay,
    ReadRegS16BEWithDelay, bind;
  rewrite H; reflexivity.

(** C6.  When the register-select write of [[reg]] fails with [e], every
    register read returns [e] together with a zero or nil value and leaves
    the channel as the failed write left it: the transport is not asked to
    read (the history holds no more read events than before) and there is
    no pause. *)
Theorem failed_select_prevents_read v reg n delay (c : Z) (e : error) v' :
  WriteBytes [reg] v = ((c, Some e), v') ->
  ReadRegBytes reg n v = (Returned (None, 0, Some e), v') /\
  ReadRegBytesWithDelay reg n delay v = (Returned (None, 0, Some e), v') /\
  ReadRegU8 reg v = ((Byte.x00, Some e), v') /\
  ReadRegU8WithDelay reg delay v = ((Byte.x00, Some e), v') /\
  ReadRegU16BE reg v = ((0, Some e), v') /\
  ReadRegU16BEWithDelay reg delay v = ((0, Some e), v') /\
  ReadRegU16LE reg v = ((0, Some e), v') /\
  ReadRegU16LEWithDelay reg delay v = ((0, Some e), v') /\
  ReadRegS16BE reg v = ((0, Some e), v') /\
  ReadRegS16BEWithDelay reg delay v = ((0, Some e), v') /\
  ReadRegS16LE reg v = ((0, Some e), v') /\
  ReadRegS16LEWithDelay reg delay v = ((0, Some e), v') /\
  read_events v' = read_events v /\
  (history (rc v') = history (rc v) \/
   history (rc v') = history (rc v) ++ [EvWrite [reg]]).
Proof.
  intros H.
  do 12 (split; [stops_at_select H|]).
  split.
  - change v' with (snd ((c, Some e), v')). rewrite <- H.
    apply WriteBytes_no_read.
  - destruct (closed (rc v)) eqn:Hc.
    + rewrite WriteBytes_closed in H by assumption.
      injection H as _ _ <-. now left.
    + rewrite WriteBytes_open in H by assumption.
      injection H as _ <-. now right.
Qed.

Lemma WriteBytes_sent v frame :
  closed (rc v) = false ->
  (let '(_, err, v') := WriteBytes frame v in (err, v')) = sent v frame.
Proof.
  intros H. rewrite WriteBytes_open by assumption. unfold sent.
  destruct (dev_write T frame (dev (rc v))) as [[n err] d]. reflexivity.
Qed.

Lemma WriteRegU8_sent v reg (value : byte) :
  closed (rc v) = false -> WriteRegU8 reg value v = sent v [reg; value].
Proof.
  intros H. rewrite <- WriteBytes_sent by assumption.
  unfold WriteRegU8, bind.
  destruct (WriteBytes [reg; value] v) as [[n [e|]] v']; reflexivity.
Qed.

Lemma WriteRegU16BE_sent v reg (value : Z) :
  closed (rc v) = false -> WriteRegU16BE reg value v = sent v (frame_u16 reg value).
Proof.
  intros H. rewrite <- WriteBytes_sent by assumption.
  unfold WriteRegU16BE, bind.
  destruct (WriteBytes (frame_u16 reg value) v) as [[n [e|]] v']; reflexivity.
Qed.

Lemma WriteRegS16BE_sent v reg (value : Z) :
  closed (rc v) = false -> WriteRegS16BE reg value v = sent v (frame_s16 reg value).
Proof.
  intros H. rewrite <- WriteBytes_sent by assumption.
  unfold WriteRegS16BE, bind.
  destruct (WriteBytes (frame_s16 reg value) v) as [[n [e|]] v']; reflexivity.
Qed.

Lemma sent_history v frame :
  history (rc (snd (sent v frame))) = history (rc v) ++ [EvWrite frame].
Proof.
  unfold sent. destruct (dev_write T frame (dev (rc v))) as [[n err] d].
  reflexivity.
Qed.

(** What the little-endian writers put on the wire, for every value. *)
Lemma WriteRegU16LE_sent v reg (value : Z) :
  closed (rc v) = false -> Int.is_u16 value ->
  WriteRegU16LE reg value v = sent v [reg; Int.to_byte value; Int.to_byte (- value)].
Proof.
  intros H R. unfold WriteRegU16LE.
  rewrite WriteRegU16BE_sent by assumption. now rewrite frame_le_u16.
Qed.

Lemma WriteRegS16LE_sent v reg (value : Z) :
  closed (rc v) = false -> Int.is_s16 value ->
  WriteRegS16LE reg value v = sent v [reg; Int.to_byte value; Int.to_byte (- value)].
Proof.
  intros H R. unfold WriteRegS16LE.
  rewrite WriteRegS16BE_sent by assumption. now rewrite frame_le_s16.
Qed.

(** C7.  On an open channel each register write is one write transaction
    and nothing else: its frame is the register address followed by the
    value for a byte write, and by the high byte and then the low byte of
    the 16-bit pattern for a big-endian word write; the history grows by
    that one write, with no select transaction and no pause, and the error
    returned is the one of that write. *)
Theorem register_write_single_frame v reg (b : byte) (u s : Z) :
  closed (rc v) = false ->
  Int.is_u16 u ->
  Int.is_s16 s ->
  let fu := [reg; Int.to_byte (u / 256); Int.to_byte (u mod 256)] in
  let fs := [reg; Int.to_byte (Int.u16 s / 256); Int.to_byte (Int.u16 s mod 256)] in
  WriteRegU8 reg b v = sent v [reg; b] /\
  WriteRegU16BE reg u v = sent v fu /\
  WriteRegS16BE reg s v = sent v fs /\
  history (rc (snd (WriteRegU8 reg b v))) = history (rc v) ++ [EvWrite [reg; b]] /\
  history (rc (snd (WriteRegU16BE reg u v))) = history (rc v) ++ [EvWrite fu] /\
  history (rc (snd (WriteRegS16BE reg s v))) = history (rc v) ++ [EvWrite fs].
Proof.
  intros H _ _ fu fs. subst fu fs.
  rewrite WriteRegU8_sent, WriteRegU16BE_sent, WriteRegS16BE_sent by assumption.
  rewrite !sent_history, frame_u16_eq, frame_s16_eq.
  repeat split.
Qed.

End Frames.

(** ** The life of a channel *)

Section Lifetime.

Context {T : Transport}.
Implicit Types (v u : I2C T) (o : Op) (ops : list Op).

Lemma keeps_ret {A : Type} (a : A) : keeps T (ret a).
Proof. intros v. now simpl. Qed.

Lemma keeps_bind {A B : Type} (m : M T A) (k : A -> M T B) :
  keeps T m -> (forall a, keeps T (k a)) -> keeps T (bind m k).
Proof.
  intros Hm Hk v. unfold bind. specialize (Hm v).
  destruct (m v) as [a v1]. simpl in Hm. specialize (Hk a v1).
  destruct Hm as (<- & <- & <-). exact Hk.
Qed.

Lemma keeps_lift {A : Type} (f : A -> Reply) (m : M T A) : keeps T m -> keeps T (lift f m).
Proof.
  intros Hm v. unfold lift. specialize (Hm v). now destruct (m v).
Qed.

Lemma keeps_WriteBytes buf : keeps T (WriteBytes buf).
Proof.
  intros v. destruct (closed (rc v)) eqn:H.
  - now rewrite WriteBytes_closed.
  - rewrite WriteBytes_open by assumption. simpl. auto.
Qed.

Lemma keeps_ReadBytes buf : keeps T (ReadBytes buf).
Proof.
  intros v. destruct (closed (rc v)) eqn:H.
  - now rewrite ReadBytes_closed.
  - rewrite ReadBytes_open by assumption. simpl. auto.
Qed.

Lemma keeps_Sleep delay : keeps T (Sleep delay).
Proof. intros v. now simpl. Qed.

Lemma keeps_GetBus : keeps T GetBus.
Proof. intros v. now simpl. Qed.

Lemma keeps_GetAddr : keeps T GetAddr.
Proof. intros v. now simpl. Qed.

Ltac keeps_step :=
  first
    [ apply keeps_ret | apply keeps_WriteBytes | apply keeps_ReadBytes
    | apply keeps_Sleep | apply keeps_GetBus | apply keeps_GetAddr
    | apply keeps_lift
    | apply keeps_bind; [| intros ?]
    | match goal with
      | |- keeps T (match ?x with _ => _ end) => destruct x
      | |- keeps T (let (_, _) := ?x in _) => destruct x
      end ].

Lemma keeps_exec o : o <> OpClose -> keeps T (exec o).
Proof.
  intros Ho. destruct o; try congruence; simpl;
    unfold ReadRegBytes, ReadRegU8, ReadRegU16BE, ReadRegU16LE, ReadRegS16BE,
      ReadRegS16LE, WriteRegU16LE, WriteRegS16LE, ReadRegBytesWithDelay,
      ReadRegU8WithDelay, ReadRegU16LEWithDelay, ReadRegS16LEWithDelay,
      ReadRegU16BEWithDelay, ReadRegS16BEWithDelay, WriteRegU8, WriteRegU16BE,
      WriteRegS16BE;
    repeat keeps_step.
Qed.

(** [Close] leaves address and bus alone and ends with a closed handle. *)
Lemma Close_effect v :
  addr (snd (Close v)) = addr v /\ bus (snd (Close v)) = bus v /\
  closed (rc (snd (Close v))) = true.
Proof.
  unfold Close, File_Close. destruct (closed (rc v)) eqn:H.
  - simpl. auto.
  - destruct (dev_close T (dev (rc v))). simpl. auto.
Qed.

Lemma exec_identity o v :
  addr (snd (exec o v)) = addr v /\ bus (snd (exec o v)) = bus v.
Proof.
  destruct (Op_eq_Close o) as [-> | Ho].
  - simpl. unfold lift. pose proof (Close_effect v) as H.
    destruct (Close v). simpl in *. tauto.
  - pose proof (keeps_exec o Ho v). tauto.
Qed.

End Lifetime.

Section States.

Context {T : Transport}.
Implicit Types (v u : I2C T) (o : Op) (ops : list Op).

Lemma run_cons o ops v : run (o :: ops) v = run ops (snd (exec o v)).
Proof. reflexivity. Qed.

(** On a closed channel a call changes nothing, and a transfer returns
    [ChannelClosed]. *)
Lemma exec_closed o v :
  closed (rc v) = true ->
  snd (exec o v) = v /\
  (is_transfer o = true -> fst (exec o v) = RError (Some ChannelClosed)).
Proof.
  intros H. destruct v as [a b [c d h]]. simpl in H. subst c.
  destruct o; split; intros; try discriminate; reflexivity.
Qed.

Lemma run_closed ops v : closed (rc v) = true -> run ops v = v.
Proof.
  intros H. induction ops as [|o ops IH].
  - reflexivity.
  - rewrite run_cons. destruct (exec_closed o v H) as [-> _]. exact IH.
Qed.

Lemma run_identity ops v :
  addr (run ops v) = addr v /\ bus (run ops v) = bus v.
Proof.
  revert v. induction ops as [|o ops IH]; intros v.
  - now simpl.
  - rewrite run_cons. destruct (IH (snd (exec o v))) as [-> ->].
    apply exec_identity.
Qed.

(** C8.  After a [Close] that succeeded the channel is [Closed]; from then
    on, whatever was called in between, every read or write operation
    fails with [ChannelClosed] and leaves the channel, its device and its
    history untouched.  A channel is [Open] or [Closed], and the only change
    of state any call makes is [Close] taking [Open] to [Closed]. *)
Theorem closed_channel_rejects_transfers v v' :
  Close v = (None, v') ->
  state v' = Closed /\
  (forall ops, run ops v' = v') /\
  (forall ops o, is_transfer o = true ->
     exec o (run ops v') = (RError (Some ChannelClosed), v')) /\
  (forall u o,
     state (snd (exec o u)) = state u \/
     (o = OpClose /\ state u = Open /\ state (snd (exec o u)) = Closed)).
Proof.
  intros H.
  assert (Hc : closed (rc v') = true).
  { pose proof (Close_effect v) as E. rewrite H in E. simpl in E. tauto. }
  split; [unfold state; now rewrite Hc|].
  split; [intros ops; now apply run_closed|].
  split.
  - intros ops o Ho. rewrite run_closed by assumption.
    destruct (exec_closed o v' Hc) as [E1 E2]. specialize (E2 Ho).
    destruct (exec o v') as [r w]. simpl in *. now subst.
  - intros u o. unfold state. destruct (Op_eq_Close o) as [-> | Ho].
    + simpl. unfold lift. pose proof (Close_effect u) as E.
      destruct (Close u) as [e w]. simpl in *.
      destruct E as (_ & _ & ->). destruct (closed (rc u)); auto.
    + left. destruct (keeps_exec o Ho u) as (_ & _ & ->). reflexivity.
Qed.

(** C9.  A channel built by [NewI2C addr bus] keeps that address and that
    bus number through every sequence of calls: after any calls [GetAddr]
    and [GetBus] return the constructor's arguments, and they leave the
    channel exactly as it was. *)
Theorem address_and_bus_fixed (slave : Z) (a : byte) (b : Z) v ops :
  NewI2C slave a b = inr v ->
  fst (GetAddr (run ops v)) = a /\
  fst (GetBus (run ops v)) = b /\
  snd (GetAddr (run ops v)) = run ops v /\
  snd (GetBus (run ops v)) = run ops v.
Proof.
  intros H. simpl.
  destruct (run_identity ops v) as [-> ->].
  unfold NewI2C in H.
  destruct (dev_open T b) as [e|d]; [discriminate|].
  destruct (ioctl d slave (Int.of_byte a)) as [e|d']; [discriminate|].
  injection H as <-. simpl. auto.
Qed.

End States.

(** ** The little-endian writers and the signed little-endian read *)

Lemma store_hit (p : Z) (data : list byte) (c : Z -> byte) (i : nat) :
  0 <= p < 256 -> (i < length data)%nat -> (length data <= 256)%nat ->
  Fake.store p data c ((p + Z.of_nat i) mod 256) = nth i data Byte.x00.
Proof.
  intros Hp Hi Hl. unfold Fake.store.
  replace (Z.to_nat (((p + Z.of_nat i) mod 256 - p) mod 256)) with i.
  - rewrite (nth_error_nth' data Byte.x00) by assumption. reflexivity.
  - apply Nat2Z.inj. rewrite Z2Nat.id by (apply Z.mod_pos_bound; lia).
    Z.div_mod_to_equations. lia.
Qed.

Lemma store_nil (p : Z) (c : Z -> byte) (a : Z) : Fake.store p [] c a = c a.
Proof. unfold Fake.store. now destruct (Z.to_nat ((a - p) mod 256)). Qed.

(** The register file gives back the two bytes last written to a register. *)
Lemma Fake_echo (reg x y : byte) :
  delivers (snd (sent (Fake.channel Fake.blank) [reg; x; y])) reg 2 [x; y].
Proof.
  repeat split. cbn. rewrite !store_nil.
  pose proof (byte.unsigned_range reg) as R. change (2 ^ 8) with 256 in R.
  rewrite (store_hit _ [x; y] _ 0), (store_hit _ [x; y] _ 1) by (simpl; lia).
  reflexivity.
Qed.

(** Written big-endian and read big-endian, every word comes back. *)
Lemma Fake_roundtrip_u16be (reg : byte) (value : Z) :
  Int.is_u16 value ->
  fst (ReadRegU16BE reg (snd (WriteRegU16BE reg value (Fake.channel Fake.blank))))
  = (value, None).
Proof.
  intros R. rewrite WriteRegU16BE_sent by reflexivity. rewrite frame_u16_eq.
  unfold ReadRegU16BE. rewrite (ReadRegU16BE_protocol _ _ _ _ (Fake_echo _ _ _)).
  simpl. rewrite assemble_u16_eq, !of_to_byte. f_equal. wordarith.
Qed.

(** Written little-endian and read little-endian, a word comes back with
    the low byte of its negation in place of its high byte. *)
Lemma Fake_roundtrip_u16le (reg : byte) (value : Z) :
  Int.is_u16 value ->
  fst (ReadRegU16LE reg (snd (WriteRegU16LE reg value (Fake.channel Fake.blank))))
  = ((- value) mod 256 * 256 + value mod 256, None).
Proof.
  intros R. rewrite WriteRegU16LE_sent by (reflexivity || assumption).
  unfold ReadRegU16LE.
  rewrite (ReadRegU16LE_of_BE _ _ _ _ _
             (ReadRegU16BE_protocol _ _ _ _ (Fake_echo _ _ _))).
  simpl. rewrite exchange_assemble_u16, !of_to_byte. f_equal. wordarith.
Qed.

(** C1.  [WriteRegU16LE] and [WriteRegS16LE] at the value [0x0102]: the word
    handed to the big-endian writer is [0x02FE], so the frame carries the
    data bytes [0x02, 0xFE]; the byte-swapped value [0x0201] would give
    [0x02, 0x01]. *)
Theorem WriteRegLE_frame_at_0x0102 :
  le_word_u16 0x0102 = 0x02FE /\
  le_word_s16 0x0102 = 0x02FE /\
  le_word_u16 0x0102 <> 0x0201 /\
  le_word_s16 0x0102 <> 0x0201 /\
  history (rc (snd (WriteRegU16LE Byte.x10 0x0102 (Fake.channel Fake.blank))))
    = [EvWrite [Byte.x10; Byte.x02; Byte.xfe]] /\
  history (rc (snd (WriteRegS16LE Byte.x10 0x0102 (Fake.channel Fake.blank))))
    = [EvWrite [Byte.x10; Byte.x02; Byte.xfe]] /\
  history (rc (snd (WriteRegU16BE Byte.x10 0x0201 (Fake.channel Fake.blank))))
    = [EvWrite [Byte.x10; Byte.x02; Byte.x01]] /\
  history (rc (snd (WriteRegS16BE Byte.x10 0x0201 (Fake.channel Fake.blank))))
    = [EvWrite [Byte.x10; Byte.x02; Byte.x01]].
Proof. repeat split; discriminate. Qed.

(** C2.  The value [1], written with [WriteRegU16LE] to a register file
    that gives back what was written and read with [ReadRegU16LE], comes
    back as [0xFF01]; the same through the big-endian pair comes back as
    [1]. *)
Theorem roundtrip_u16le_at_1 :
  fst (ReadRegU16LE Byte.x10
         (snd (WriteRegU16LE Byte.x10 1 (Fake.channel Fake.blank))))
    = (0xFF01, None) /\
  fst (ReadRegU16LE Byte.x10
         (snd (WriteRegU16LE Byte.x10 1 (Fake.channel Fake.blank))))
    <> (1, None) /\
  history (rc (snd (WriteRegU16LE Byte.x10 1 (Fake.channel Fake.blank))))
    = [EvWrite [Byte.x10; Byte.x01; Byte.xff]] /\
  fst (ReadRegU16BE Byte.x10
         (snd (WriteRegU16BE Byte.x10 1 (Fake.channel Fake.blank))))
    = (1, None).
Proof. repeat split; discriminate. Qed.

(** C3.  [ReadRegS16LE] on the wire bytes [0x80, 0x01]: the signed
    big-endian result is [-32767], its exchange is [128], while
    [(0x01<<8)+0x80] is [384], which is what the unsigned little-endian
    read returns for the same bytes. *)
Theorem ReadRegS16LE_at_0x80_0x01 :
  fst (ReadRegS16BE Byte.x10
         (Fake.channel (Fake.holding Byte.x10 [Byte.x80; Byte.x01])))
    = (-32767, None) /\
  fst (ReadRegS16LE Byte.x10
         (Fake.channel (Fake.holding Byte.x10 [Byte.x80; Byte.x01])))
    = (128, None) /\
  fst (ReadRegS16LE Byte.x10
         (Fake.channel (Fake.holding Byte.x10 [Byte.x80; Byte.x01])))
    <> (384, None) /\
  twos_complement (Z.shiftl (Int.of_byte Byte.x01) 8 + Int.of_byte Byte.x80) = 384 /\
  fst (ReadRegU16LE Byte.x10
         (Fake.channel (Fake.holding Byte.x10 [Byte.x80; Byte.x01])))
    = (384, None).
Proof. repeat split; discriminate. Qed.

(** ** The register reads on any channel *)

Section Transactions.

Context {T : Transport}.
Implicit Types (v : I2C T) (reg : byte) (delay : Z) (o : Op).

Lemma max_alloc_room : 0x7FFFFFFF <= max_alloc T.
Proof. apply Z.leb_le, max_alloc_min. Qed.

Lemma make_bytes_in (n : Z) :
  0 <= n <= max_alloc T ->
  make_bytes (max_alloc T) n = Returned (repeat Byte.x00 (Z.to_nat n)).
Proof.
  intros H. unfold make_bytes.
  destruct (Z.ltb_spec n 0); [lia|].
  destruct (Z.ltb_spec (max_alloc T) n); [lia|]. reflexivity.
Qed.

Lemma make_bytes_out (n : Z) :
  n < 0 \/ max_alloc T < n -> make_bytes (max_alloc T) n = Panicked.
Proof.
  intros H. unfold make_bytes.
  destruct (Z.ltb_spec n 0); [reflexivity|].
  destruct (Z.ltb_spec (max_alloc T) n); [reflexivity|lia].
Qed.

Lemma make_bytes_1 : make_bytes (max_alloc T) 1 = Returned (repeat Byte.x00 1).
Proof. pose proof max_alloc_room. apply make_bytes_in. lia. Qed.

Lemma make_bytes_2 : make_bytes (max_alloc T) 2 = Returned (repeat Byte.x00 2).
Proof. pose proof max_alloc_room. apply make_bytes_in. lia. Qed.

(** Unfolds a register read past a successful select write. *)
Ltac past_select H :=
  destruct H as [Hopen Hsel];
  unfold bind; rewrite WriteBytes_open by assumption;
  unfold read_reply, after_read;
  destruct (dev_write T _ _) as [[c werr] d1]; simpl in Hsel |- *;
  subst werr; unfold Sleep; simpl;
  rewrite ReadBytes_open by reflexivity; simpl;
  rewrite ?repeat_length;
  destruct (dev_read T _ d1) as [[data rerr] d2]; simpl;
  unfold with_rc; simpl; rewrite <- !app_assoc; simpl.

Lemma ReadRegU8_selected v reg delay :
  selected v reg ->
  ReadRegU8WithDelay reg delay v =
  (match snd (read_reply v reg 1) with
   | Some e => (Byte.x00, Some e)
   | None => (nth 0 (fst (read_reply v reg 1)) Byte.x00, None)
   end, after_read v reg delay 1).
Proof.
  intros H. unfold ReadRegU8WithDelay. past_select H.
  destruct rerr; [reflexivity|].
  now rewrite (index_fill_zero 1 0) by lia.
Qed.

Lemma ReadRegU16BE_selected v reg delay :
  selected v reg ->
  ReadRegU16BEWithDelay reg delay v =
  (match snd (read_reply v reg 2) with
   | Some e => (0, Some e)
   | None => (assemble_u16 (nth 0 (fst (read_reply v reg 2)) Byte.x00)
                           (nth 1 (fst (read_reply v reg 2)) Byte.x00), None)
   end, after_read v reg delay 2).
Proof.
  intros H. unfold ReadRegU16BEWithDelay. past_select H.
  destruct rerr; [reflexivity|].
  now rewrite (index_fill_zero 2 0), (index_fill_zero 2 1) by lia.
Qed.

Lemma ReadRegS16BE_selected v reg delay :
  selected v reg ->
  ReadRegS16BEWithDelay reg delay v =
  (match snd (read_reply v reg 2) with
   | Some e => (0, Some e)
   | None => (assemble_s16 (nth 0 (fst (read_reply v reg 2)) Byte.x00)
                           (nth 1 (fst (read_reply v reg 2)) Byte.x00), None)
   end, after_read v reg delay 2).
Proof.
  intros H. unfold ReadRegS16BEWithDelay. past_select H.
  destruct rerr; [reflexivity|].
  now rewrite (index_fill_zero 2 0), (index_fill_zero 2 1) by lia.
Qed.

Lemma ReadRegBytes_selected v reg (n : Z) delay :
  selected v reg -> 0 <= n <= max_alloc T ->
  ReadRegBytesWithDelay reg n delay v =
  (match snd (read_reply v reg (Z.to_nat n)) with
   | Some e => Returned (None, 0, Some e)
   | None =>
       Returned (Some (fill (repeat Byte.x00 (Z.to_nat n))
                            (fst (read_reply v reg (Z.to_nat n)))),
                 Z.of_nat (length (firstn (Z.to_nat n)
                                          (fst (read_reply v reg (Z.to_nat n))))),
                 None)
   end, after_read v reg delay (Z.to_nat n)).
Proof.
  intros H Hn. unfold ReadRegBytesWithDelay.
  rewrite make_bytes_in by assumption.
  past_select H. destruct rerr; reflexivity.
Qed.

Lemma ReadRegU16LE_unfold v reg delay :
  ReadRegU16LEWithDelay reg delay v =
  (match snd (fst (ReadRegU16BEWithDelay reg delay v)) with
   | Some e => (0, Some e)
   | None => (exchange_u16 (fst (fst (ReadRegU16BEWithDelay reg delay v))), None)
   end, snd (ReadRegU16BEWithDelay reg delay v)).
Proof.
  unfold ReadRegU16LEWithDelay, bind.
  destruct (ReadRegU16BEWithDelay reg delay v) as [[w [e|]] v']; reflexivity.
Qed.

Lemma ReadRegS16LE_unfold v reg delay :
  ReadRegS16LEWithDelay reg delay v =
  (match snd (fst (ReadRegS16BEWithDelay reg delay v)) with
   | Some e => (0, Some e)
   | None => (exchange_s16 (fst (fst (ReadRegS16BEWithDelay reg delay v))), None)
   end, snd (ReadRegS16BEWithDelay reg delay v)).
Proof.
  unfold ReadRegS16LEWithDelay, bind.
  destruct (ReadRegS16BEWithDelay reg delay v) as [[w [e|]] v']; reflexivity.
Qed.

(** X2.  Past a successful select write, a read that fails with [e] makes
    the register read return [e] with a zero or nil value: [ReadRegU8] when
    the one-byte read fails, each word read when the two-byte read fails,
    [ReadRegBytes] (for an [n] that [make] accepts) when the [n]-byte read
    fails; [ReadRegBytes] returns the count [0], not the count of the failed
    read.  The select write is not undone: the channel has made the write,
    the pause and the read. *)
Theorem failed_read_after_select v reg delay (e : error) :
  selected v reg ->
  (snd (read_reply v reg 1) = Some e ->
   ReadRegU8WithDelay reg delay v
     = ((Byte.x00, Some e), after_read v reg delay 1)) /\
  (snd (read_reply v reg 2) = Some e ->
   ReadRegU16BEWithDelay reg delay v = ((0, Some e), after_read v reg delay 2) /\
   ReadRegU16LEWithDelay reg delay v = ((0, Some e), after_read v reg delay 2) /\
   ReadRegS16BEWithDelay reg delay v = ((0, Some e), after_read v reg delay 2) /\
   ReadRegS16LEWithDelay reg delay v = ((0, Some e), after_read v reg delay 2)) /\
  (forall n : Z,
     0 <= n <= max_alloc T ->
     snd (read_reply v reg (Z.to_nat n)) = Some e ->
     ReadRegBytesWithDelay reg n delay v
       = (Returned (None, 0, Some e), after_read v reg delay (Z.to_nat n))).
Proof.
  intros H. split; [|split].
  - intros E. rewrite ReadRegU8_selected by assumption. now rewrite E.
  - intros E. rewrite ReadRegU16LE_unfold, ReadRegS16LE_unfold.
    rewrite ReadRegU16BE_selected, ReadRegS16BE_selected by assumption.
    rewrite E. simpl. repeat split.
  - intros n Hn E. rewrite ReadRegBytes_selected by assumption. now rewrite E.
Qed.

(** X3.  When the select write and the read succeed, [ReadRegBytes] with
    an [n] that [make] accepts ([0 <= n], and [n] at most the allocation
    limit of the platform) returns a buffer of exactly [n] bytes: the bytes
    the transport stored, then zeros.  The count it returns is the number of bytes stored,
    between [0] and [n], and can be smaller than [n] with a nil error. *)
Theorem ReadRegBytes_buffer v reg (n : Z) delay (data : list byte) :
  selected v reg ->
  0 <= n <= max_alloc T ->
  read_reply v reg (Z.to_nat n) = (data, None) ->
  (length data <= Z.to_nat n)%nat ->
  exists buf c,
    ReadRegBytesWithDelay reg n delay v
      = (Returned (Some buf, c, None), after_read v reg delay (Z.to_nat n)) /\
    ReadRegBytes reg n v
      = (Returned (Some buf, c, None),
         after_read v reg DefaultReadDelay (Z.to_nat n)) /\
    Z.of_nat (length buf) = n /\
    buf = padded (Z.to_nat n) data /\
    c = Z.of_nat (length data) /\
    0 <= c <= n.
Proof.
  intros H Hn E Hl.
  exists (padded (Z.to_nat n) data), (Z.of_nat (length data)).
  unfold ReadRegBytes. rewrite !ReadRegBytes_selected by assumption.
  rewrite E. simpl.
  assert (F : fill (repeat Byte.x00 (Z.to_nat n)) data = padded (Z.to_nat n) data).
  { unfold fill, padded. rewrite repeat_length, firstn_all2 by assumption.
    f_equal.
    apply nth_ext with (d := Byte.x00) (d' := Byte.x00).
    - rewrite length_skipn, !repeat_length. reflexivity.
    - intros i _. rewrite nth_skipn, !nth_repeat. reflexivity. }
  rewrite F, firstn_all2 by assumption.
  repeat split; try lia.
  unfold padded. rewrite length_app, repeat_length. lia.
Qed.

(** X4.  [ReadRegBytes] with a negative [n] on a channel whose select write
    succeeds panics in [make], after the select write has gone out and
    before any pause or read; when the select write fails it returns that
    error and does not panic. *)
Theorem ReadRegBytes_negative v reg (n : Z) delay :
  n < 0 ->
  (selected v reg ->
   fst (ReadRegBytesWithDelay reg n delay v) = Panicked /\
   history (rc (snd (ReadRegBytesWithDelay reg n delay v)))
     = history (rc v) ++ [EvWrite [reg]]) /\
  (forall e, snd (fst (WriteBytes [reg] v)) = Some e ->
   fst (ReadRegBytesWithDelay reg n delay v) = Returned (None, 0, Some e)).
Proof.
  intros Hn. split.
  - intros [Hopen Hsel]. unfold ReadRegBytesWithDelay, bind.
    rewrite make_bytes_out by (now left).
    rewrite WriteBytes_open by assumption.
    destruct (dev_write T _ _) as [[c werr] d1]. simpl in Hsel |- *. subst werr.
    now simpl.
  - intros e He. unfold ReadRegBytesWithDelay, bind.
    destruct (WriteBytes [reg] v) as [[c werr] v1]. simpl in He. now subst werr.
Qed.

(** X15.  [ReadRegBytes] with an [n] above the allocation limit of the
    platform panics in [make] like a negative one: after the select write
    has gone out and before any pause or read; when the select write fails
    it returns that error and does not panic. *)
Theorem ReadRegBytes_oversized v reg (n : Z) delay :
  max_alloc T < n ->
  (selected v reg ->
   fst (ReadRegBytesWithDelay reg n delay v) = Panicked /\
   history (rc (snd (ReadRegBytesWithDelay reg n delay v)))
     = history (rc v) ++ [EvWrite [reg]]) /\
  (forall e, snd (fst (WriteBytes [reg] v)) = Some e ->
   fst (ReadRegBytesWithDelay reg n delay v) = Returned (None, 0, Some e)).
Proof.
  intros Hn. split.
  - intros [Hopen Hsel]. unfold ReadRegBytesWithDelay, bind.
    rewrite make_bytes_out by (now right).
    rewrite WriteBytes_open by assumption.
    destruct (dev_write T _ _) as [[c werr] d1]. simpl in Hsel |- *. subst werr.
    now simpl.
  - intros e He. unfold ReadRegBytesWithDelay, bind.
    destruct (WriteBytes [reg] v) as [[c werr] v1]. simpl in He. now subst werr.
Qed.

Lemma assemble_s16_range (b0 b1 : byte) : Int.is_s16 (assemble_s16 b0 b1).
Proof. unfold assemble_s16. wordarith. Qed.


Lemma exchange_s16_range (w : Z) : Int.is_s16 (exchange_s16 w).
Proof. unfold exchange_s16. wordarith. Qed.


Lemma assemble_signed_unsigned (b0 b1 : byte) :
  assemble_s16 b0 b1 = twos_complement (assemble_u16 b0 b1).
Proof. now rewrite assemble_s16_eq, assemble_u16_eq. Qed.

(** Unfolds a big-endian or byte read down to its two transport calls. *)
Ltac two_calls :=
  unfold ReadRegU8WithDelay, ReadRegU16BEWithDelay, ReadRegS16BEWithDelay,
    ReadRegBytesWithDelay, bind; rewrite ?make_bytes_1, ?make_bytes_2;
  destruct (WriteBytes _ _) as [[c [e|]] v1]; simpl;
  [| destruct (ReadBytes _ _) as [[[buf c'] [e|]] v2]; simpl ].


Lemma ReadRegS16BE_range v reg delay :
  Int.is_s16 (fst (fst (ReadRegS16BEWithDelay reg delay v))).
Proof.
  two_calls; try (unfold Int.is_s16; lia). apply assemble_s16_range.
Qed.



(** X7.  On every channel the signed big-endian read makes the same
    transport calls as the unsigned one and returns the same error; its
    value is the two's-complement reading of the unsigned value. *)
Theorem signed_read_of_unsigned v reg delay :
  snd (ReadRegS16BEWithDelay reg delay v) = snd (ReadRegU16BEWithDelay reg delay v) /\
  snd (fst (ReadRegS16BEWithDelay reg delay v))
    = snd (fst (ReadRegU16BEWithDelay reg delay v)) /\
  fst (fst (ReadRegS16BEWithDelay reg delay v))
    = twos_complement (fst (fst (ReadRegU16BEWithDelay reg delay v))).
Proof.
  repeat split; two_calls; try reflexivity. apply assemble_signed_unsigned.
Qed.

End Transactions.

(** ** What a call does to the transport, and in which order *)

Section Footprints.

Context {T : Transport}.
Implicit Types (v : I2C T) (reg : byte) (delay : Z) (o : Op).

Lemma make_bytes_spec (n : Z) :
  make_bytes (max_alloc T) n
  = if in_range T n then Returned (repeat Byte.x00 (Z.to_nat n)) else Panicked.
Proof.
  unfold make_bytes, in_range.
  destruct (Z.ltb_spec n 0), (Z.leb_spec 0 n), (Z.ltb_spec (max_alloc T) n),
    (Z.leb_spec n (max_alloc T)); simpl; try reflexivity; lia.
Qed.

Ltac open_calls :=
  repeat match goal with
    | |- context [dev_write T ?b ?d] =>
        destruct (dev_write T b d) as [[? [?|]] ?]; simpl
    | |- context [dev_read T ?k ?d] =>
        destruct (dev_read T k d) as [[? [?|]] ?]; simpl
    | |- context [dev_close T ?d] =>
        destruct (dev_close T d) as [[?|] ?]; simpl
    end.

Ltac unfolded :=
  cbv -[dev_write dev_read dev_close firstn Z.ltb app Z.to_nat length
        frame_u16 frame_s16 le_word_u16 le_word_s16 repeat
        assemble_u16 assemble_s16 exchange_u16 exchange_s16 fill index Z.of_nat].

(** Brings a call into the shape of its transport calls, with [make]
    decided. *)
Ltac as_calls :=
  unfold plan, expected, exec, ReadRegBytes, ReadRegBytesWithDelay;
  rewrite ?make_bytes_spec;
  try match goal with |- context [in_range T ?n] => destruct (in_range T n) end;
  unfolded.

Ltac grown_by :=
  rewrite <- ?app_assoc; simpl;
  first [ exists 0%nat; simpl; now rewrite app_nil_r
        | exists 1%nat; reflexivity
        | exists 2%nat; reflexivity
        | exists 3%nat; reflexivity ].

Lemma exec_performs o v :
  exec o v = (expected T o (fst (perform (plan T o) v)), snd (perform (plan T o) v)).
Proof.
  destruct v as [a b [[|] d h]];
    destruct o; as_calls; rewrite ?repeat_length; open_calls; reflexivity.
Qed.

Lemma exec_history_prefix o v :
  exists k, history (rc (snd (exec o v)))
            = history (rc v) ++ firstn k (footprint o).
Proof.
  destruct v as [a b [[|] d h]].
  - exists 0%nat. simpl firstn. rewrite app_nil_r.
    now destruct (exec_closed o {| addr := a; bus := b;
      rc := {| closed := true; dev := d; history := h |} |} eq_refl) as [-> _].
  - destruct o; as_calls; rewrite ?repeat_length; open_calls; grown_by.
Qed.

Lemma exec_history_whole o v :
  fst (exec o v) = RError None \/ fst (exec o v) = RValue ->
  history (rc (snd (exec o v))) = history (rc v) ++ footprint o.
Proof.
  destruct v as [a b [[|] d h]].
  - destruct o; cbn; intros [E|E]; try discriminate E; now rewrite app_nil_r.
  - destruct o; as_calls; rewrite ?repeat_length; open_calls;
      rewrite <- ?app_assoc; simpl;
      intros [E|E]; try discriminate E; try reflexivity;
      now rewrite app_nil_r.
Qed.

(** X1.  Every method is its plan performed step by step, stopping at the
    first step that fails: the channel after the call is the channel after
    performing the plan, where the first event that ends with an error is
    the last one made, and the error returned is that one.  A register read
    is the one-byte select write, the pause, and one read of the needed
    width; a register write is one write of its frame; the accessors do
    nothing.  So the history after a call is the history before followed
    by a prefix of the call's footprint, and by the whole footprint when
    the call returns a nil error (or is an accessor): no step is repeated,
    nothing follows a failed step. *)
Theorem calls_follow_footprint o v :
  exec o v = (expected T o (fst (perform (plan T o) v)), snd (perform (plan T o) v)) /\
  (exists k, history (rc (snd (exec o v)))
             = history (rc v) ++ firstn k (footprint o)) /\
  (fst (exec o v) = RError None \/ fst (exec o v) = RValue ->
   history (rc (snd (exec o v))) = history (rc v) ++ footprint o).
Proof.
  split; [apply exec_performs|].
  split; [apply exec_history_prefix | apply exec_history_whole].
Qed.

End Footprints.

(** ** Writing and reading back; the two signed paths; the little-endian paths *)

Section RoundTrips.

Context {T : Transport}.
Implicit Types (v : I2C T) (reg : byte) (delay : Z).

Lemma frame_s16_as_u16 reg (s : Z) : frame_s16 reg s = frame_u16 reg (Int.u16 s).
Proof. now rewrite frame_s16_eq, frame_u16_eq. Qed.

(** X9.  A byte written with [WriteRegU8] to a device that gives back what
    was written to a register is the byte [ReadRegU8] returns. *)
Theorem roundtrip_u8 v reg (value : byte) :
  closed (rc v) = false ->
  gives_back v [reg; value] ->
  fst (ReadRegU8 reg (snd (WriteRegU8 reg value v))) = (value, None).
Proof.
  intros Hopen G. rewrite WriteRegU8_sent by assumption.
  unfold ReadRegU8. now rewrite (ReadRegU8_protocol _ _ _ _ G).
Qed.

(** X10.  Every unsigned 16-bit value written with [WriteRegU16BE] to a
    device that gives back what was written is the value [ReadRegU16BE]
    returns. *)
Theorem roundtrip_u16be v reg (value : Z) :
  closed (rc v) = false ->
  Int.is_u16 value ->
  gives_back v (frame_u16 reg value) ->
  fst (ReadRegU16BE reg (snd (WriteRegU16BE reg value v))) = (value, None).
Proof.
  intros Hopen R G. rewrite WriteRegU16BE_sent by assumption.
  rewrite frame_u16_eq in G |- *.
  unfold ReadRegU16BE. rewrite (ReadRegU16BE_protocol _ _ _ _ G). simpl.
  rewrite assemble_u16_eq, !of_to_byte. f_equal. wordarith.
Qed.

(** X11.  Every signed 16-bit value, negative ones included, written with
    [WriteRegS16BE] to a device that gives back what was written is the
    value [ReadRegS16BE] returns. *)
Theorem roundtrip_s16be v reg (value : Z) :
  closed (rc v) = false ->
  Int.is_s16 value ->
  gives_back v (frame_s16 reg value) ->
  fst (ReadRegS16BE reg (snd (WriteRegS16BE reg value v))) = (value, None).
Proof.
  intros Hopen R G. rewrite WriteRegS16BE_sent by assumption.
  rewrite frame_s16_eq in G |- *.
  unfold ReadRegS16BE. rewrite (ReadRegS16BE_protocol _ _ _ _ G). simpl.
  rewrite assemble_s16_eq, !of_to_byte. f_equal. wordarith.
Qed.

(** X12.  On every channel [WriteRegS16BE] with the value [s] does exactly
    what [WriteRegU16BE] does with the 16-bit pattern of [s], that is with
    [s] for [s >= 0] and [s + 65536] for [s < 0]. *)
Theorem signed_write_is_unsigned_write v reg (s : Z) :
  Int.is_s16 s ->
  WriteRegS16BE reg s v = WriteRegU16BE reg (Int.u16 s) v /\
  WriteRegS16BE reg s v = WriteRegU16BE reg (if s <? 0 then s + 65536 else s) v /\
  twos_complement (Int.u16 s) = s.
Proof.
  intros R.
  assert (E : WriteRegS16BE reg s v = WriteRegU16BE reg (Int.u16 s) v).
  { unfold WriteRegS16BE, WriteRegU16BE. now rewrite frame_s16_as_u16. }
  assert (P : Int.u16 s = if s <? 0 then s + 65536 else s) by wordarith.
  split; [exact E|]. split; [now rewrite <- P|]. wordarith.
Qed.

(** X13.  The little-endian writers put the low byte of the value and the
    low byte of its negation on the wire: two values with the same low byte
    are written as the same frame, whatever their high bytes. *)
Theorem little_endian_write_drops_high_byte v reg (u1 u2 s1 s2 : Z) :
  Int.is_u16 u1 -> Int.is_u16 u2 -> u1 mod 256 = u2 mod 256 ->
  Int.is_s16 s1 -> Int.is_s16 s2 -> s1 mod 256 = s2 mod 256 ->
  WriteRegU16LE reg u1 v = WriteRegU16LE reg u2 v /\
  WriteRegS16LE reg s1 v = WriteRegS16LE reg s2 v /\
  (closed (rc v) = false ->
   WriteRegU16LE reg u1 v = sent v [reg; Int.to_byte u1; Int.to_byte (- u1)] /\
   WriteRegS16LE reg s1 v = sent v [reg; Int.to_byte s1; Int.to_byte (- s1)]).
Proof.
  intros U1 U2 EU S1 S2 ES.
  assert (FU : frame_u16 reg (le_word_u16 u1) = frame_u16 reg (le_word_u16 u2)).
  { rewrite !frame_le_u16 by assumption.
    rewrite (to_byte_congr u1 u2), (to_byte_congr (- u1) (- u2));
      try reflexivity; try assumption.
    revert EU; clear; intros; Z.div_mod_to_equations; lia. }
  assert (FS : frame_s16 reg (le_word_s16 s1) = frame_s16 reg (le_word_s16 s2)).
  { rewrite !frame_le_s16 by assumption.
    rewrite (to_byte_congr s1 s2), (to_byte_congr (- s1) (- s2));
      try reflexivity; try assumption.
    revert ES; clear; intros; Z.div_mod_to_equations; lia. }
  split; [unfold WriteRegU16LE, WriteRegU16BE; now rewrite FU|].
  split; [unfold WriteRegS16LE, WriteRegS16BE; now rewrite FS|].
  intros Hopen. split.
  - now apply WriteRegU16LE_sent.
  - now apply WriteRegS16LE_sent.
Qed.

(** X14.  When the transport delivers the wire bytes [b0, b1], the signed
    little-endian read returns the two's-complement reading of a word whose
    low byte is [b0] and whose high byte is [b1] when [b0 < 0x80], and
    [b1 - 1] modulo 256 otherwise. *)
Theorem ReadRegS16LE_wire v reg delay (b0 b1 : byte) :
  delivers v reg 2 [b0; b1] ->
  fst (ReadRegS16LEWithDelay reg delay v)
    = (twos_complement
         (Z.shiftl ((Int.of_byte b1 - (if Int.of_byte b0 <? 128 then 0 else 1))
                    mod 256) 8 + Int.of_byte b0), None) /\
  (Int.of_byte b0 < 128 ->
   fst (ReadRegS16LEWithDelay reg delay v)
     = (twos_complement (Z.shiftl (Int.of_byte b1) 8 + Int.of_byte b0), None) /\
   fst (ReadRegS16LE reg v)
     = (twos_complement (Z.shiftl (Int.of_byte b1) 8 + Int.of_byte b0), None)).
Proof.
  intros D.
  assert (E : forall d, fst (ReadRegS16LEWithDelay reg d v)
                = (exchange_s16 (assemble_s16 b0 b1), None)).
  { intros d.
    now rewrite (ReadRegS16LE_of_BE _ _ _ _ _ (ReadRegS16BE_protocol _ _ d _ D)). }
  split.
  - rewrite E. now rewrite exchange_assemble_s16.
  - intros L. unfold ReadRegS16LE. rewrite !E.
    now rewrite exchange_assemble_s16_low.
Qed.

End RoundTrips.

(** ** The theorems at concrete channels *)

Lemma ReadRegU16_wire_order_witness :
  delivers (Fake.channel (Fake.holding Byte.x10 [Byte.x01; Byte.x02]))
           Byte.x10 2 [Byte.x01; Byte.x02] /\
  fst (ReadRegU16BE Byte.x10
         (Fake.channel (Fake.holding Byte.x10 [Byte.x01; Byte.x02])))
    = (0x0102, None) /\
  fst (ReadRegU16LE Byte.x10
         (Fake.channel (Fake.holding Byte.x10 [Byte.x01; Byte.x02])))
    = (0x0201, None).
Proof.
  assert (D : delivers (Fake.channel (Fake.holding Byte.x10 [Byte.x01; Byte.x02]))
                       Byte.x10 2 [Byte.x01; Byte.x02])
    by (repeat split; reflexivity).
  split; [exact D|].
  destruct (ReadRegU16_wire_order _ Byte.x10 0 _ _ D) as (E1 & E2 & _).
  split; [exact E1 | exact E2].
Defined.

Lemma ReadRegS16BE_twos_complement_witness :
  delivers (Fake.channel (Fake.holding Byte.x10 [Byte.xff; Byte.xff]))
           Byte.x10 2 [Byte.xff; Byte.xff] /\
  fst (ReadRegS16BE Byte.x10
         (Fake.channel (Fake.holding Byte.x10 [Byte.xff; Byte.xff])))
    = (-1, None).
Proof.
  assert (D : delivers (Fake.channel (Fake.holding Byte.x10 [Byte.xff; Byte.xff]))
                       Byte.x10 2 [Byte.xff; Byte.xff])
    by (repeat split; reflexivity).
  split; [exact D|].
  destruct (ReadRegS16BE_twos_complement _ Byte.x10 0 _ _ D) as (E1 & _).
  exact E1.
Defined.

Lemma failed_select_prevents_read_witness :
  WriteBytes [Byte.x10] (Fake.channel (Fake.deaf (Errno 121)))
    = ((0, Some (Errno 121)),
       snd (WriteBytes [Byte.x10] (Fake.channel (Fake.deaf (Errno 121))))) /\
  ReadRegU8 Byte.x10 (Fake.channel (Fake.deaf (Errno 121)))
    = ((Byte.x00, Some (Errno 121)),
       snd (WriteBytes [Byte.x10] (Fake.channel (Fake.deaf (Errno 121))))) /\
  read_events (snd (WriteBytes [Byte.x10] (Fake.channel (Fake.deaf (Errno 121)))))
    = [].
Proof.
  assert (W : WriteBytes [Byte.x10] (Fake.channel (Fake.deaf (Errno 121)))
              = ((0, Some (Errno 121)),
                 snd (WriteBytes [Byte.x10] (Fake.channel (Fake.deaf (Errno 121))))))
    by reflexivity.
  split; [exact W|].
  destruct (failed_select_prevents_read _ Byte.x10 4 0 _ _ _ W)
    as (_ & _ & E & _ & _ & _ & _ & _ & _ & _ & _ & _ & R & _).
  split; [exact E | exact R].
Defined.

Lemma register_write_single_frame_witness :
  closed (rc (Fake.channel Fake.blank)) = false /\
  Int.is_u16 0x1234 /\ Int.is_s16 (-2) /\
  history (rc (snd (WriteRegU8 Byte.x10 Byte.xc8 (Fake.channel Fake.blank))))
    = [EvWrite [Byte.x10; Byte.xc8]] /\
  history (rc (snd (WriteRegU16BE Byte.x10 0x1234 (Fake.channel Fake.blank))))
    = [EvWrite [Byte.x10; Byte.x12; Byte.x34]] /\
  history (rc (snd (WriteRegS16BE Byte.x10 (-2) (Fake.channel Fake.blank))))
    = [EvWrite [Byte.x10; Byte.xff; Byte.xfe]].
Proof.
  assert (U : Int.is_u16 0x1234) by (unfold Int.is_u16; lia).
  assert (S : Int.is_s16 (-2)) by (unfold Int.is_s16; lia).
  split; [reflexivity|]. split; [exact U|]. split; [exact S|].
  destruct (register_write_single_frame (Fake.channel Fake.blank) Byte.x10 Byte.xc8
              0x1234 (-2) eq_refl U S) as (_ & _ & _ & E1 & E2 & E3).
  split; [exact E1|]. split; [exact E2 | exact E3].
Defined.

Lemma closed_channel_rejects_transfers_witness :
  Close (Fake.channel Fake.blank) = (None, snd (Close (Fake.channel Fake.blank))) /\
  exec (OpReadRegU8 Byte.x10)
       (run [OpWriteRegU8 Byte.x10 Byte.xc8] (snd (Close (Fake.channel Fake.blank))))
    = (RError (Some ChannelClosed), snd (Close (Fake.channel Fake.blank))).
Proof.
  assert (C : Close (Fake.channel Fake.blank)
              = (None, snd (Close (Fake.channel Fake.blank)))) by reflexivity.
  split; [exact C|].
  destruct (closed_channel_rejects_transfers _ _ C) as (_ & _ & E & _).
  exact (E [OpWriteRegU8 Byte.x10 Byte.xc8] (OpReadRegU8 Byte.x10) eq_refl).
Defined.

Lemma address_and_bus_fixed_witness :
  @NewI2C Fake.transport 0x0703 Byte.x48 1 = inr (Fake.channel Fake.blank) /\
  fst (GetAddr (run [OpWriteRegU8 Byte.x10 Byte.xc8; OpClose; OpReadRegU8 Byte.x10]
                    (Fake.channel Fake.blank))) = Byte.x48 /\
  fst (GetBus (run [OpWriteRegU8 Byte.x10 Byte.xc8; OpClose; OpReadRegU8 Byte.x10]
                   (Fake.channel Fake.blank))) = 1.
Proof.
  assert (N : @NewI2C Fake.transport 0x0703 Byte.x48 1
              = inr (Fake.channel Fake.blank)) by reflexivity.
  split; [exact N|].
  destruct (address_and_bus_fixed 0x0703 Byte.x48 1 _
              [OpWriteRegU8 Byte.x10 Byte.xc8; OpClose; OpReadRegU8 Byte.x10] N)
    as (E1 & E2 & _).
  split; [exact E1 | exact E2].
Defined.

Lemma fixed_width_reads_ignore_count_witness :
  selected (Fake.channel (Fake.short Byte.x10 [Byte.x01; Byte.xf4] 1)) Byte.x10 /\
  read_reply (Fake.channel (Fake.short Byte.x10 [Byte.x01; Byte.xf4] 1))
             Byte.x10 2 = ([Byte.x01], None) /\
  fst (ReadRegU16BEWithDelay Byte.x10 0
         (Fake.channel (Fake.short Byte.x10 [Byte.x01; Byte.xf4] 1)))
    = (0x0100, None) /\
  fst (ReadRegS16LEWithDelay Byte.x10 0
         (Fake.channel (Fake.short Byte.x10 [Byte.x01; Byte.xf4] 1)))
    = (0x0001, None) /\
  fst (ReadRegU16BEWithDelay Byte.x10 0
         (Fake.channel (Fake.short Byte.x10 [Byte.x01; Byte.xf4] 1)))
    = fst (ReadRegU16BEWithDelay Byte.x10 0
             (Fake.channel (Fake.holding Byte.x10 [Byte.x01; Byte.x00]))).
Proof.
  assert (S : selected (Fake.channel (Fake.short Byte.x10 [Byte.x01; Byte.xf4] 1))
                       Byte.x10) by (split; reflexivity).
  assert (P2 : delivers (Fake.channel (Fake.holding Byte.x10 [Byte.x01; Byte.x00]))
                        Byte.x10 2 (padded 2 [Byte.x01])) by (repeat split; reflexivity).
  split; [exact S|]. split; [reflexivity|].
  destruct (fixed_width_reads_ignore_count _ Byte.x10 0 S) as [_ W].
  destruct (W [Byte.x01] eq_refl)
    as (E & _ & _ & L & _ & _ & _ & _ & _ & _ & I).
  split; [exact E|]. split; [exact L|].
  destruct (I _ P2) as (J & _). exact J.
Defined.

Lemma calls_follow_footprint_witness :
  exec (OpReadRegU16LE Byte.x10) (Fake.channel (Fake.deaf (Errno 121)))
    = (RError (Some (Errno 121)),
       snd (perform [EvWrite [Byte.x10]] (Fake.channel (Fake.deaf (Errno 121))))) /\
  fst (exec (OpReadRegU16LE Byte.x10)
         (Fake.channel (Fake.holding Byte.x10 [Byte.x01; Byte.xf4])))
    = RError None /\
  history (rc (snd (exec (OpReadRegU16LE Byte.x10)
                      (Fake.channel (Fake.holding Byte.x10 [Byte.x01; Byte.xf4])))))
    = [EvWrite [Byte.x10]; EvSleep 0; EvRead 2].
Proof.
  destruct (calls_follow_footprint (OpReadRegU16LE Byte.x10)
              (Fake.channel (Fake.deaf (Errno 121)))) as [P _].
  split; [exact P|].
  split; [reflexivity|].
  destruct (calls_follow_footprint (OpReadRegU16LE Byte.x10)
              (Fake.channel (Fake.holding Byte.x10 [Byte.x01; Byte.xf4])))
    as (_ & _ & W).
  exact (W (or_introl eq_refl)).
Defined.

Lemma failed_read_after_select_witness :
  selected (Fake.channel (unreadable (Errno 121))) Byte.x10 /\
  snd (read_reply (Fake.channel (unreadable (Errno 121))) Byte.x10 2)
    = Some (Errno 121) /\
  ReadRegBytesWithDelay Byte.x10 4 0 (Fake.channel (unreadable (Errno 121)))
    = (Returned (None, 0, Some (Errno 121)),
       after_read (Fake.channel (unreadable (Errno 121))) Byte.x10 0 4) /\
  ReadRegU16LEWithDelay Byte.x10 0 (Fake.channel (unreadable (Errno 121)))
    = ((0, Some (Errno 121)),
       after_read (Fake.channel (unreadable (Errno 121))) Byte.x10 0 2).
Proof.
  assert (S : selected (Fake.channel (unreadable (Errno 121))) Byte.x10)
    by (split; reflexivity).
  assert (N : 0 <= 4 <= max_alloc Fake.transport) by (simpl; lia).
  split; [exact S|]. split; [reflexivity|].
  destruct (failed_read_after_select _ Byte.x10 0 (Errno 121) S) as (_ & W & B).
  destruct (W eq_refl) as (_ & E2 & _).
  split; [exact (B 4 N eq_refl) | exact E2].
Defined.

Lemma ReadRegBytes_buffer_witness :
  selected (Fake.channel (Fake.short Byte.x10 [Byte.x01; Byte.xf4] 1)) Byte.x10 /\
  read_reply (Fake.channel (Fake.short Byte.x10 [Byte.x01; Byte.xf4] 1))
             Byte.x10 (Z.to_nat 2) = ([Byte.x01], None) /\
  exists buf c,
    ReadRegBytes Byte.x10 2
      (Fake.channel (Fake.short Byte.x10 [Byte.x01; Byte.xf4] 1))
      = (Returned (Some buf, c, None),
         after_read (Fake.channel (Fake.short Byte.x10 [Byte.x01; Byte.xf4] 1))
                    Byte.x10 DefaultReadDelay (Z.to_nat 2)) /\
    buf = [Byte.x01; Byte.x00] /\ c = 1.
Proof.
  assert (S : selected (Fake.channel (Fake.short Byte.x10 [Byte.x01; Byte.xf4] 1))
                       Byte.x10) by (split; reflexivity).
  assert (N : 0 <= 2 <= max_alloc Fake.transport) by (simpl; lia).
  split; [exact S|]. split; [reflexivity|].
  destruct (ReadRegBytes_buffer _ Byte.x10 2 0 [Byte.x01] S N eq_refl
              (le_S 1 1 (le_n 1)))
    as (buf & c & _ & E & _ & B & C & _).
  exists buf, c. split; [exact E|]. split; [exact B | exact C].
Defined.

Lemma ReadRegBytes_negative_witness :
  -1 < 0 /\
  selected (Fake.channel Fake.blank) Byte.x10 /\
  fst (ReadRegBytesWithDelay Byte.x10 (-1) 0 (Fake.channel Fake.blank)) = Panicked /\
  history (rc (snd (ReadRegBytesWithDelay Byte.x10 (-1) 0 (Fake.channel Fake.blank))))
    = [EvWrite [Byte.x10]].
Proof.
  assert (N : -1 < 0) by lia.
  assert (S : selected (Fake.channel Fake.blank) Byte.x10) by (split; reflexivity).
  split; [exact N|]. split; [exact S|].
  destruct (ReadRegBytes_negative (Fake.channel Fake.blank) Byte.x10 (-1) 0 N)
    as [P _].
  exact (P S).
Defined.

Lemma ReadRegBytes_oversized_witness :
  max_alloc Fake.transport < 2 ^ 48 + 1 /\
  selected (Fake.channel Fake.blank) Byte.x10 /\
  fst (ReadRegBytesWithDelay Byte.x10 (2 ^ 48 + 1) 0 (Fake.channel Fake.blank))
    = Panicked /\
  history (rc (snd (ReadRegBytesWithDelay Byte.x10 (2 ^ 48 + 1) 0
                      (Fake.channel Fake.blank))))
    = [EvWrite [Byte.x10]].
Proof.
  assert (N : max_alloc Fake.transport < 2 ^ 48 + 1) by (simpl; lia).
  assert (S : selected (Fake.channel Fake.blank) Byte.x10) by (split; reflexivity).
  split; [exact N|]. split; [exact S|].
  destruct (ReadRegBytes_oversized (Fake.channel Fake.blank) Byte.x10 (2 ^ 48 + 1) 0 N)
    as [P _].
  exact (P S).
Defined.

Lemma roundtrip_u8_witness :
  gives_back (Fake.channel Fake.blank) [Byte.x10; Byte.xc8] /\
  fst (ReadRegU8 Byte.x10
         (snd (WriteRegU8 Byte.x10 Byte.xc8 (Fake.channel Fake.blank))))
    = (Byte.xc8, None).
Proof.
  assert (G : gives_back (Fake.channel Fake.blank) [Byte.x10; Byte.xc8])
    by (repeat split; reflexivity).
  split; [exact G|].
  exact (roundtrip_u8 (Fake.channel Fake.blank) Byte.x10 Byte.xc8 eq_refl G).
Defined.

Lemma roundtrip_u16be_witness :
  Int.is_u16 0xF401 /\
  gives_back (Fake.channel Fake.blank) (frame_u16 Byte.x10 0xF401) /\
  fst (ReadRegU16BE Byte.x10
         (snd (WriteRegU16BE Byte.x10 0xF401 (Fake.channel Fake.blank))))
    = (0xF401, None).
Proof.
  assert (R : Int.is_u16 0xF401) by (unfold Int.is_u16; lia).
  assert (G : gives_back (Fake.channel Fake.blank) (frame_u16 Byte.x10 0xF401))
    by (repeat split; reflexivity).
  split; [exact R|]. split; [exact G|].
  exact (roundtrip_u16be (Fake.channel Fake.blank) Byte.x10 0xF401 eq_refl R G).
Defined.

Lemma roundtrip_s16be_witness :
  Int.is_s16 (-500) /\
  gives_back (Fake.channel Fake.blank) (frame_s16 Byte.x10 (-500)) /\
  fst (ReadRegS16BE Byte.x10
         (snd (WriteRegS16BE Byte.x10 (-500) (Fake.channel Fake.blank))))
    = (-500, None).
Proof.
  assert (R : Int.is_s16 (-500)) by (unfold Int.is_s16; lia).
  assert (G : gives_back (Fake.channel Fake.blank) (frame_s16 Byte.x10 (-500)))
    by (repeat split; reflexivity).
  split; [exact R|]. split; [exact G|].
  exact (roundtrip_s16be (Fake.channel Fake.blank) Byte.x10 (-500) eq_refl R G).
Defined.

Lemma signed_write_is_unsigned_write_witness :
  Int.is_s16 (-2) /\
  WriteRegS16BE Byte.x10 (-2) (Fake.channel Fake.blank)
    = WriteRegU16BE Byte.x10 0xFFFE (Fake.channel Fake.blank).
Proof.
  assert (R : Int.is_s16 (-2)) by (unfold Int.is_s16; lia).
  split; [exact R|].
  destruct (signed_write_is_unsigned_write (Fake.channel Fake.blank) Byte.x10 (-2) R)
    as (E & _).
  exact E.
Defined.

Lemma little_endian_write_drops_high_byte_witness :
  0x0102 mod 256 = 0xFF02 mod 256 /\
  0x0102 mod 256 = (-254) mod 256 /\
  WriteRegU16LE Byte.x10 0x0102 (Fake.channel Fake.blank)
    = WriteRegU16LE Byte.x10 0xFF02 (Fake.channel Fake.blank) /\
  WriteRegS16LE Byte.x10 0x0102 (Fake.channel Fake.blank)
    = WriteRegS16LE Byte.x10 (-254) (Fake.channel Fake.blank).
Proof.
  assert (U1 : Int.is_u16 0x0102) by (unfold Int.is_u16; lia).
  assert (U2 : Int.is_u16 0xFF02) by (unfold Int.is_u16; lia).
  assert (S1 : Int.is_s16 0x0102) by (unfold Int.is_s16; lia).
  assert (S2 : Int.is_s16 (-254)) by (unfold Int.is_s16; lia).
  split; [reflexivity|]. split; [reflexivity|].
  destruct (little_endian_write_drops_high_byte (Fake.channel Fake.blank) Byte.x10
              0x0102 0xFF02 0x0102 (-254) U1 U2 eq_refl S1 S2 eq_refl)
    as (E1 & E2 & _).
  split; [exact E1 | exact E2].
Defined.

Lemma ReadRegS16LE_wire_witness :
  delivers (Fake.channel (Fake.holding Byte.x10 [Byte.x01; Byte.x80]))
           Byte.x10 2 [Byte.x01; Byte.x80] /\
  Int.of_byte Byte.x01 < 128 /\
  fst (ReadRegS16LE Byte.x10
         (Fake.channel (Fake.holding Byte.x10 [Byte.x01; Byte.x80])))
    = (-32767, None).
Proof.
  assert (D : delivers (Fake.channel (Fake.holding Byte.x10 [Byte.x01; Byte.x80]))
                       Byte.x10 2 [Byte.x01; Byte.x80])
    by (repeat split; reflexivity).
  assert (L : Int.of_byte Byte.x01 < 128) by reflexivity.
  split; [exact D|]. split; [exact L|].
  destruct (ReadRegS16LE_wire _ Byte.x10 0 _ _ D) as (_ & W).
  destruct (W L) as (_ & E). exact E.
Defined.
